(** * TodoAgent: message routing and offline fallback

    A shallow embedding of [backend/src/agents/todo_agent.py].

    Python [str] values are modelled as [String.string]; each [ascii] stands
    for one code point in the range U+0000..U+00FF, on which [str.lower],
    [str.isspace] and friends are transcribed exactly.  String constants of
    the source that hold characters above U+00FF are written in UTF-8.
    Output on stdout ([print]) is not part of the model. *)

From Stdlib Require Import String Ascii List ZArith NArith QArith Bool Lia.
From Stdlib Require Import DecimalString.
Import ListNotations.
Close Scope Q_scope.
Open Scope string_scope.

(** ** Python string primitives used by the agent *)

Module PyStr.

(** [c.isspace()] on U+0000..U+00FF: TAB..CR, FS..US, SPACE, NEL, NBSP. *)
Definition isspace (c : ascii) : bool :=
  let n := N_of_ascii c in
  ((9 <=? n) && (n <=? 13) || (28 <=? n) && (n <=? 32)
   || (n =? 133) || (n =? 160))%N.

(** [c.lower()] on U+0000..U+00FF: A..Z and the Latin-1 capitals
    U+00C0..U+00DE (the multiplication sign U+00D7 has no case). *)
Definition lower_char (c : ascii) : ascii :=
  let n := N_of_ascii c in
  if ((65 <=? n) && (n <=? 90)
      || (192 <=? n) && (n <=? 222) && negb (n =? 215))%N
  then ascii_of_N (n + 32) else c.

Fixpoint lower (s : string) : string :=
  match s with
  | EmptyString => EmptyString
  | String c s' => String (lower_char c) (lower s')
  end.

Fixpoint lstrip (s : string) : string :=
  match s with
  | EmptyString => EmptyString
  | String c s' => if isspace c then lstrip s' else s
  end.

Fixpoint rstrip (s : string) : string :=
  match s with
  | EmptyString => EmptyString
  | String c s' =>
      match rstrip s' with
      | EmptyString => if isspace c then EmptyString else String c EmptyString
      | r => String c r
      end
  end.

(** [s.strip()] *)
Definition strip (s : string) : string := rstrip (lstrip s).

(** [s.split()] with no separator: the maximal runs of non-whitespace. *)
Fixpoint tokens (s : string) : string * list string :=
  match s with
  | EmptyString => (EmptyString, [])
  | String c s' =>
      let '(t, ts) := tokens s' in
      if isspace c
      then (EmptyString, match t with EmptyString => ts | _ => t :: ts end)
      else (String c t, ts)
  end.

Definition split_ws (s : string) : list string :=
  let '(t, ts) := tokens s in
  match t with EmptyString => ts | _ => t :: ts end.

(** [sub in s] *)
Fixpoint contains (sub s : string) : bool :=
  prefix sub s
  || match s with
     | EmptyString => false
     | String _ s' => contains sub s'
     end.

(** [s.startswith(p)] *)
Definition startswith (s p : string) : bool := prefix p s.

(** [s.find(sub, start)]: lowest index at or after [start], or -1. *)
Definition find (s sub : string) (start : Z) : Z :=
  let n := Z.of_nat (String.length s) in
  let st := if (start <? 0)%Z then Z.max 0 (start + n) else start in
  match index (Z.to_nat st) sub s with
  | Some i => Z.of_nat i
  | None => (-1)%Z
  end.

(** [s[i:j]] *)
Definition slice (s : string) (i j : Z) : string :=
  let n := Z.of_nat (String.length s) in
  let clamp k := if (k <? 0)%Z then Z.max 0 (k + n) else Z.min k n in
  let a := clamp i in
  let b := clamp j in
  substring (Z.to_nat a) (Z.to_nat (b - a)) s.

(** [s.split(sep, 1)] for a non-empty [sep]. *)
Definition split1 (s sep : string) : list string :=
  match index 0 sep s with
  | Some i =>
      [substring 0 i s;
       substring (i + String.length sep) (String.length s - (i + String.length sep)) s]
  | None => [s]
  end.

(** [s.replace(old, new)] for a non-empty [old]: every occurrence, left
    to right, without overlap.  [skip] counts the characters of a match
    that are still to be dropped. *)
Fixpoint replace_from (old new : string) (skip : nat) (s : string) : string :=
  match s with
  | EmptyString => EmptyString
  | String c s' =>
      match skip with
      | S k => replace_from old new k s'
      | O =>
          if prefix old s
          then new ++ replace_from old new (String.length old - 1) s'
          else String c (replace_from old new 0 s')
      end
  end.

Fixpoint interleave (new s : string) : string :=
  match s with
  | EmptyString => new
  | String c s' => new ++ String c (interleave new s')
  end.

Definition replace (s old new : string) : string :=
  match old with
  | EmptyString => interleave new s
  | _ => replace_from old new 0 s
  end.

(** [any(w in s for w in words)] *)
Definition any_in (words : list string) (s : string) : bool :=
  existsb (fun w => contains w s) words.

(** [str(n)] for a non-negative integer. *)
Definition str_of_N (n : N) : string :=
  NilEmpty.string_of_uint (N.to_uint n).

(** [bool(s)] *)
Definition truthy (s : string) : bool :=
  match s with EmptyString => false | _ => true end.

End PyStr.

Import PyStr.

Definition nl : string := String (ascii_of_nat 10) EmptyString.
Definition dq : string := String (ascii_of_nat 34) EmptyString.


(** ** Exceptions, outcomes and the outside world *)

(** The [Exception] subclasses that can surface in the two network paths.
    In httpx, [TimeoutException] derives from [RequestError], while
    [HTTPStatusError] does not. *)
Inductive exn : Type :=
| TimeoutException
| RequestError
| HTTPStatusError (status_code : N)
| AttributeError
| IndexError
| OtherException.

Definition is_TimeoutException (e : exn) : bool :=
  match e with TimeoutException => true | _ => false end.

Definition is_RequestError (e : exn) : bool :=
  match e with TimeoutException | RequestError => true | _ => false end.

Definition is_HTTPStatusError (e : exn) : bool :=
  match e with HTTPStatusError _ => true | _ => false end.

(** A Python call either returns a value or raises. *)
Inductive outcome (A : Type) : Type :=
| Ret (a : A)
| Raise (e : exn).
Arguments Ret {A} a.
Arguments Raise {A} e.

Definition bind {A B : Type} (m : outcome A) (k : A -> outcome B) : outcome B :=
  match m with
  | Ret a => k a
  | Raise e => Raise e
  end.

Notation "x <- m ;; k" := (bind m (fun x => k))
  (at level 61, m at next level, right associativity).

(** [try: body  except Exception: handler] *)
Definition try_except {A : Type} (body : outcome A) (handler : exn -> outcome A)
  : outcome A :=
  match body with
  | Ret a => Ret a
  | Raise e => handler e
  end.

#[local] Set Warnings "-register-all".
Inductive json : Type :=
| JNull
| JStr (s : string)
| JNum (q : Q)
| JList (l : list json)
| JDict (d : list (string * json)).

(** The request built by [_call_openrouter_api] for [httpx.Client.post]. *)
Record http_request : Type := {
  url : string;
  headers : list (string * string);
  payload : json
}.

(** What the [with httpx.Client(...)] block meets: [post] raises, or a
    response arrives with a status code and a body that [json()] decodes
    or fails to decode. *)
Inductive http_reply : Type :=
| Replied (status : N) (body : outcome json)
| PostRaises (e : exn).

(** The handle built by [OpenAI(api_key=..., base_url=...)]. *)
Record OpenAI : Type := {
  client_api_key : string;
  client_base_url : string
}.

(** Arguments of [client.chat.completions.create]. *)
Record chat_request : Type := {
  cr_model : string;
  cr_messages : list (string * string);
  cr_temperature : Q
}.

(** Its result: a response whose [choices] carry [message.content]
    ([None] is Python's [None]), or an exception. *)
Inductive chat_reply : Type :=
| ChatResponse (choices : list (option string))
| ChatRaises (e : exn).

(** Outbound calls, in the order they are made. *)
Inductive event : Type :=
| HttpPost (req : http_request)
| ChatCompletion (c : OpenAI) (req : chat_request).

(** The environment of one call: the two remote endpoints and the index
    drawn by [random.choice]. *)
Record Env : Type := {
  chat_create : OpenAI -> chat_request -> chat_reply;
  http_post : http_request -> http_reply;
  rand : nat
}.

(** The value and the outbound calls of one method call. *)
Definition run (A : Type) : Type := (outcome A * list event)%type.

(** ** The agent object *)

Record TodoAgent : Type := {
  openrouter_api_key : option string;
  offline_mode : bool;
  current_user_id : option string;
  api_key : option string;
  model : string;
  base_url : string;
  client : option OpenAI
}.

(** [bool(os.getenv(...))] *)
Definition bool_of_key (k : option string) : bool :=
  match k with
  | Some s => truthy s
  | None => false
  end.

(** [TodoAgent.__init__], given the value of [os.getenv("OPENROUTER_API_KEY")]. *)
Definition __init__ (getenv : option string) : TodoAgent :=
  let offline := negb (bool_of_key getenv) in
  {| openrouter_api_key := getenv;
     offline_mode := offline;
     current_user_id := None;
     api_key := getenv;
     model := "openai/gpt-4o-mini";
     base_url := "https://openrouter.ai/api/v1";
     client :=
       match getenv with
       | Some k =>
           if offline then None
           else Some {| client_api_key := k;
                        client_base_url := "https://openrouter.ai/api/v1" |}
       | None => None
       end |}.

Definition set_current_user_id (self : TodoAgent) (u : string) : TodoAgent :=
  {| openrouter_api_key := openrouter_api_key self;
     offline_mode := offline_mode self;
     current_user_id := Some u;
     api_key := api_key self;
     model := model self;
     base_url := base_url self;
     client := client self |}.

(** ** [_call_openrouter_api] *)

Definition timeout_content : string :=
  "The request timed out. Please check your internet connection and try again. I can still help you manage your todos if you'd like!".

Definition network_content : string :=
  "I'm currently unable to connect to my AI services due to a network issue. I can help you manage your todos directly though. What would you like to do?".

Definition http_error_content (status_code : N) : string :=
  "API Error " ++ str_of_N status_code ++ ": I'm having trouble connecting to my AI services. What would you like to do with your todos?".

Definition unexpected_content : string :=
  "I'm experiencing an issue connecting to my AI services. What would you like to do with your todos?".

(** [{"choices": [{"message": {"content": c}}]}] *)
Definition mock_response (c : string) : json :=
  JDict [("choices", JList [JDict [("message", JDict [("content", JStr c)])]])].

Fixpoint dict_get (d : list (string * json)) (k : string) : option json :=
  match d with
  | [] => None
  | (k', v) :: d' => if String.eqb k' k then Some v else dict_get d' k
  end.

(** [r["choices"][0]["message"]["content"]] when it is there and a string. *)
Definition content_of (r : json) : option string :=
  match r with
  | JDict d =>
      match dict_get d "choices" with
      | Some (JList (JDict c :: _)) =>
          match dict_get c "message" with
          | Some (JDict m) =>
              match dict_get m "content" with
              | Some (JStr s) => Some s
              | _ => None
              end
          | _ => None
          end
      | _ => None
      end
  | _ => None
  end.

(** [f"Bearer {self.api_key}"] *)
Definition bearer (k : option string) : string :=
  "Bearer " ++ match k with Some s => s | None => "None" end.

(** [response.raise_for_status()]: anything but 2xx raises. *)
Definition raise_for_status (status : N) : outcome unit :=
  if ((200 <=? status) && (status <? 300))%N then Ret tt
  else Raise (HTTPStatusError status).

(** The [headers], [payload] and URL that [_call_openrouter_api] builds. *)
Definition openrouter_request (self : TodoAgent)
    (messages : json) (tools : list json) : http_request :=
  let headers :=
    [("Authorization", bearer (api_key self));
     ("Content-Type", "application/json")] in
  let payload :=
    [("model", JStr (model self));
     ("messages", messages);
     ("temperature", JNum (7 # 10))] in
  let payload :=
    match tools with
    | [] => payload
    | _ => (payload ++ [("tools", JList tools)])%list
    end in
  {| url := base_url self ++ "/chat/completions";
     headers := headers;
     payload := JDict payload |}.

Definition _call_openrouter_api (env : Env) (self : TodoAgent)
    (messages : json) (tools : list json) : run json :=
  let req := openrouter_request self messages tools in
  let body :=
    match http_post env req with
    | PostRaises e => Raise e
    | Replied status js => _ <- raise_for_status status ;; js
    end in
  (try_except body (fun e =>
     if is_TimeoutException e then Ret (mock_response timeout_content)
     else if is_RequestError e then Ret (mock_response network_content)
     else match e with
          | HTTPStatusError code => Ret (mock_response (http_error_content code))
          | _ => Ret (mock_response unexpected_content)
          end),
   [HttpPost req]).

(** ** Keyword tables *)

Definition todo_keywords : list string :=
  ["create"; "add"; "new"; "make"; "todo"; "task"; "delete"; "remove";
   "complete"; "finish"; "done"; "mark"; "show"; "list"; "view"; "get"].

Definition general_keywords : list string :=
  ["hi"; "hello"; "hey"; "greetings"; "good morning"; "good afternoon";
   "good evening"; "how are you"; "what's up"; "howdy"; "sup";
   "thanks"; "thank you"; "bye"; "goodbye"; "see you"; "later";
   "how can you help"; "what can you do"; "help"; "who are you";
   "what are you"; "tell me about yourself"; "introduce yourself";
   "nice to meet you"; "pleased to meet you"; "how's it going";
   "what's new"; "how have you been"; "long time no see";
   "what do you think"; "in your opinion"; "do you like"; "favorite";
   "hobby"; "interest"; "passion"; "dream"; "goal"; "wish";
   "weather"; "time"; "date"; "day"; "today"; "tomorrow";
   "yesterday"; "weekend"; "vacation"; "holiday"; "birthday";
   "celebration"; "party"; "fun"; "joke"; "laugh"; "smile";
   "happy"; "sad"; "angry"; "excited"; "bored"; "tired";
   "hungry"; "thirsty"; "sleepy"; "awake"; "dream"; "nightmare";
   "music"; "song"; "movie"; "film"; "book"; "game"; "sport";
   "food"; "drink"; "color"; "animal"; "place"; "country";
   "city"; "travel"; "adventure"; "story"; "memory"; "experience"].

Definition question_words : list string :=
  ["who "; "what "; "where "; "when "; "why "; "how "; "which "; "whose "].

Definition words_to_remove : list string :=
  ["create"; "add"; "new"; "make"; "todo"; "to"; "a"; "an"; "the"].

(** ** Response templates *)

Definition create_ack : string :=
  "I can help you create a todo! In a full implementation, I would create a todo based on your request.".
Definition list_ack : string :=
  "I can help you view your todos! In a full implementation, I would show your todo list.".
Definition complete_ack : string :=
  "I can help you mark a todo as complete! In a full implementation, I would update the todo status.".
Definition delete_ack : string :=
  "I can help you delete a todo! In a full implementation, I would remove the todo.".
Definition manage_hint : string :=
  "I can help you manage your todos! Try saying things like 'Create a todo to buy groceries' or 'Show me my todos'.".

Definition greeting_reply : string :=
  "Hello! I'm your todo assistant. I can help you manage your tasks and have a chat too! How can I help you today?".
Definition how_are_you_reply : string :=
  "I'm doing great, thanks for asking! I'm here and ready to help you with your todos or just chat. What's on your mind?".
Definition thanks_reply : string :=
  "You're welcome! I'm always here to help with your todos or chat. Is there anything else I can assist you with?".
Definition goodbye_reply : string :=
  "Goodbye! Don't forget to check your todos. Come back anytime!".
Definition help_reply : string :=
  "I'm your friendly todo assistant! I can help you:" ++ nl ++ nl
  ++ "📝 **Todo Management:**" ++ nl
  ++ "• Create new todos: " ++ dq ++ "Create a todo to buy groceries" ++ dq ++ nl
  ++ "• View your todos: " ++ dq ++ "Show me my todos" ++ dq ++ nl
  ++ "• Mark complete: " ++ dq ++ "Mark todo abc-123 as complete" ++ dq ++ nl
  ++ "• Delete todos: " ++ dq ++ "Delete todo abc-123" ++ dq ++ nl ++ nl
  ++ "💬 **Chat with me:**" ++ nl
  ++ "• Ask questions, tell jokes, or just say hi!" ++ nl
  ++ "• I can talk about various topics" ++ nl ++ nl
  ++ "What would you like to do?".
Definition identity_reply : string :=
  "I'm your personal todo assistant and chat companion! I help you manage your tasks while also being here for friendly conversation. I love helping people stay organized and productive!".
Definition weather_reply : string :=
  "I don't have access to current weather or time data, but I can definitely help you manage your todos and chat about other things! What's on your agenda today?".
Definition joke_reply : string :=
  "Why did the todo list go to therapy? It had too many unresolved issues! 😄 What else can I help you with?".

Definition responses : list string :=
  ["That's interesting! Tell me more about that.";
   "I love chatting! What's been happening with you?";
   "Sounds good! How else can I help you today?";
   "I'm all ears! What's next on your mind?";
   "Great to hear from you! What else is going on?";
   "I enjoy our conversations! What's new with you?"].

Definition offline_default : string :=
  "I can help you manage your todos! Try saying things like:" ++ nl
  ++ "- 'Create a todo to buy groceries'" ++ nl
  ++ "- 'Show me my todos'" ++ nl
  ++ "- 'Mark todo abc-123 as complete'" ++ nl
  ++ "- 'Delete todo abc-123'".

Definition fallback_create : string :=
  "I'd love to create a todo for you, but I'm currently in offline mode. Please try again when the AI service is available.".
Definition fallback_show : string :=
  "I'd love to show you your todos, but I'm currently in offline mode. Please try again when the AI service is available.".
Definition fallback_update : string :=
  "I'd love to update your todos, but I'm currently in offline mode. Please try again when the AI service is available.".
Definition fallback_delete : string :=
  "I'd love to delete that todo, but I'm currently in offline mode. Please try again when the AI service is available.".
Definition fallback_generic : string :=
  "I'm currently in offline mode due to connectivity issues. I can still help with basic todo management when the AI service is back online. What would you like to chat about in the meantime?".

Definition system_prompt : string :=
  "You are a helpful assistant that manages todo items for users." ++ nl
  ++ "                    You can help users create, view, update, delete, and toggle completion status of todos." ++ nl
  ++ "                    Be friendly and conversational. If the user wants to perform todo operations, guide them on how to do it." ++ nl
  ++ "                    For example:" ++ nl
  ++ "                    - To create: " ++ dq ++ "Create a todo to buy groceries" ++ dq ++ nl
  ++ "                    - To view: " ++ dq ++ "Show me my todos" ++ dq ++ nl
  ++ "                    - To complete: " ++ dq ++ "Mark todo abc-123 as complete" ++ dq ++ nl
  ++ "                    - To delete: " ++ dq ++ "Delete todo abc-123" ++ dq ++ nl
  ++ "                    ".

(** ** The pure handlers *)

Definition _is_todo_command (message_lower : string) : bool :=
  any_in todo_keywords message_lower.

Definition _handle_todo_command (user_id_str message_lower : string) : string :=
  if any_in ["create"; "add"; "new"; "make"] message_lower
     && any_in ["todo"; "task"] message_lower
  then create_ack
  else if any_in ["show"; "list"; "view"; "get"] message_lower
          && any_in ["todo"; "task"; "todos"; "tasks"] message_lower
  then list_ack
  else if any_in ["complete"; "finish"; "done"; "mark"] message_lower
          && any_in ["todo"; "task"] message_lower
  then complete_ack
  else if any_in ["delete"; "remove"] message_lower
          && any_in ["todo"; "task"] message_lower
  then delete_ack
  else manage_hint.

Definition _is_general_conversation (message_lower : string) : bool :=
  if any_in general_keywords message_lower then true
  else if existsb (fun word =>
             startswith message_lower word
             || contains (" " ++ word) message_lower) question_words
  then true
  else if (List.length (split_ws message_lower) <=? 3)%nat then true
  else false.

(** [random.choice(seq)] for a non-empty [seq], [r] being the draw. *)
Definition random_choice (r : nat) (seq : list string) : string :=
  nth (r mod List.length seq) seq EmptyString.

Definition _handle_general_conversation (env : Env) (message : string) : string :=
  let message_lower := strip (lower message) in
  if any_in ["hi"; "hello"; "hey"; "greetings"; "howdy"; "sup"] message_lower
  then greeting_reply
  else if contains "how are you" message_lower
          || contains "how's it going" message_lower
  then how_are_you_reply
  else if any_in ["thanks"; "thank you"; "thx"; "ty"] message_lower
  then thanks_reply
  else if any_in ["bye"; "goodbye"; "see you"; "later"; "cya"] message_lower
  then goodbye_reply
  else if any_in ["help"; "what can you do"; "how can you help"] message_lower
  then help_reply
  else if any_in ["who are you"; "what are you"; "introduce yourself";
                  "tell me about yourself"] message_lower
  then identity_reply
  else if any_in ["weather"; "time"; "date"; "day"] message_lower
  then weather_reply
  else if any_in ["joke"; "funny"; "laugh"] message_lower
  then joke_reply
  else random_choice (rand env) responses.

Definition _handle_offline_fallback (message : string) : string :=
  let message_lower := strip (lower message) in
  if any_in ["create"; "add"; "new"] message_lower
     && contains "todo" message_lower
  then fallback_create
  else if any_in ["show"; "list"; "view"; "get"] message_lower
  then fallback_show
  else if any_in ["complete"; "finish"; "done"; "mark"] message_lower
  then fallback_update
  else if any_in ["delete"; "remove"] message_lower
  then fallback_delete
  else fallback_generic.

Definition _extract_todo_title (message : string) : option string :=
  let message_lower := lower message in
  let fallback :=
    let title :=
      fold_left (fun title word => replace title word " ")
                words_to_remove message in
    let t := strip title in
    if truthy t then Some t else None in
  if contains "todo to" message_lower then
    let parts := split1 message "todo to" in
    if (1 <? List.length parts)%nat
    then Some (strip (nth 1 parts EmptyString))
    else fallback
  else if contains "todo:" message then
    let parts := split1 message "todo:" in
    if (1 <? List.length parts)%nat
    then Some (strip (nth 1 parts EmptyString))
    else fallback
  else if contains "add" message_lower && contains "to" message_lower then
    let add_idx := find message_lower "add" 0 in
    let to_idx := find message_lower "to" add_idx in
    if negb (add_idx =? -1)%Z && negb (to_idx =? -1)%Z
    then Some (strip (slice message (add_idx + 3) to_idx))
    else fallback
  else fallback.

(** ** The AI path and the router *)

(** A Python value that is a [str] or [None]. *)
Definition opt_str : Type := option string.

Definition _process_with_ai (env : Env) (self : TodoAgent)
    (user_id_str message : string) : run opt_str :=
  if offline_mode self then
    (Ret (Some (_handle_offline_fallback message)), [])
  else
    let messages :=
      [("system", system_prompt);
       ("user", "User ID: " ++ user_id_str ++ nl ++ "Message: " ++ message)] in
    let req := {| cr_model := "openai/gpt-4o-mini";
                  cr_messages := messages;
                  cr_temperature := 7 # 10 |} in
    let '(body, calls) :=
      match client self with
      | None => (Raise AttributeError, [])
      | Some c =>
          (match chat_create env c req with
           | ChatRaises e => Raise e
           | ChatResponse [] => Raise IndexError
           | ChatResponse (content :: _) => Ret content
           end,
           [ChatCompletion c req])
      end in
    (try_except body (fun _ => Ret (Some (_handle_offline_fallback message))),
     calls).

(** [process_message] returns its value, the agent as it leaves it, and the
    outbound calls it made.  [user_id] is taken in its [str()] form. *)
Definition process_message (env : Env) (self : TodoAgent)
    (user_id message : string) : run opt_str * TodoAgent :=
  let self := set_current_user_id self user_id in
  let user_id_str := user_id in
  let message_lower := strip (lower message) in
  if _is_todo_command message_lower then
    ((Ret (Some (_handle_todo_command user_id_str message_lower)), []), self)
  else if _is_general_conversation message_lower then
    if negb (offline_mode self)
    then (_process_with_ai env self user_id_str message, self)
    else ((Ret (Some (_handle_general_conversation env message)), []), self)
  else if negb (offline_mode self)
  then (_process_with_ai env self user_id_str message, self)
  else ((Ret (Some offline_default), []), self).

(** A sequence of calls on one agent object, each with its own environment:
    the responses in order, the final agent, and all outbound calls. *)
Fixpoint session (self : TodoAgent) (inputs : list (Env * string * string))
  : list (outcome opt_str) * TodoAgent * list event :=
  match inputs with
  | [] => ([], self, [])
  | (env, user_id, message) :: rest =>
      let '((r, calls), self1) := process_message env self user_id message in
      let '(rs, self2, calls') := session self1 rest in
      (r :: rs, self2, (calls ++ calls')%list)
  end.

(** ** Names of the spec for the routing decisions *)

Inductive Intent : Type := TodoCommand | GeneralConversation | Other.

(** The branch [process_message] takes on the normalised text. *)
Definition classify (message_lower : string) : Intent :=
  if _is_todo_command message_lower then TodoCommand
  else if _is_general_conversation message_lower then GeneralConversation
  else Other.

Definition normalize (message : string) : string := strip (lower message).

(** [k] occurs in [m] as a substring. *)
Definition occurs (k m : string) : Prop :=
  exists a b, m = a ++ k ++ b.

(** [m] begins with [k]. *)
Definition begins_with (k m : string) : Prop :=
  exists b, m = k ++ b.

Definition token_count (m : string) : nat := List.length (split_ws m).

(** Sub-intents, as the spec words them: a verb of [verbs] together with a
    noun of [nouns] somewhere in the text, first rule first. *)
Inductive TodoSubIntent : Type :=
| Create | ListTodos | Complete | Delete | Unrecognized.

Definition co_occur (verbs nouns : list string) (text : string) : bool :=
  existsb (fun v => existsb (fun n => contains v text && contains n text) nouns)
          verbs.

Definition resolveTodoSubIntent (text : string) : TodoSubIntent :=
  if co_occur ["create"; "add"; "new"; "make"] ["todo"; "task"] text
  then Create
  else if co_occur ["show"; "list"; "view"; "get"]
                   ["todo"; "task"; "todos"; "tasks"] text
  then ListTodos
  else if co_occur ["complete"; "finish"; "done"; "mark"] ["todo"; "task"] text
  then Complete
  else if co_occur ["delete"; "remove"] ["todo"; "task"] text
  then Delete
  else Unrecognized.

Definition template (i : TodoSubIntent) : string :=
  match i with
  | Create => create_ack
  | ListTodos => list_ack
  | Complete => complete_ack
  | Delete => delete_ack
  | Unrecognized => manage_hint
  end.

(** Every string the agent can answer with while offline. *)
Definition todo_templates : list string :=
  [create_ack; list_ack; complete_ack; delete_ack; manage_hint].

Definition chat_templates : list string :=
  [greeting_reply; how_are_you_reply; thanks_reply; goodbye_reply;
   help_reply; identity_reply; weather_reply; joke_reply].

Definition offline_templates : list string :=
  (todo_templates ++ chat_templates ++ [offline_default])%list.

(** The fields of the agent other than [current_user_id]. *)
Definition same_config (a b : TodoAgent) : Prop :=
  openrouter_api_key a = openrouter_api_key b
  /\ offline_mode a = offline_mode b
  /\ api_key a = api_key b
  /\ model a = model b
  /\ base_url a = base_url b
  /\ client a = client b.

(** Environments used in the examples. *)
Definition env_raising (e : exn) : Env :=
  {| chat_create := fun _ _ => ChatRaises e;
     http_post := fun _ => PostRaises e;
     rand := 0 |}.

Definition env_answering (content : option string) : Env :=
  {| chat_create := fun _ _ => ChatResponse [content];
     http_post := fun _ => Replied 200 (Ret (mock_response "ok"));
     rand := 0 |}.

Definition env_status (status : N) : Env :=
  {| chat_create := fun _ _ => ChatRaises (HTTPStatusError status);
     http_post := fun _ => Replied status (Ret JNull);
     rand := 0 |}.

(** A word of [verbs] and a word of [nouns] both occur in [t]. *)
Definition co_occurs (verbs nouns : list string) (t : string) : Prop :=
  exists v n, In v verbs /\ In n nouns /\ occurs v t /\ occurs n t.

(** The interrogative test: the text begins with the word and a blank, or
    holds the word between blanks. *)
Definition asks (t : string) : Prop :=
  exists w, In w question_words /\ (begins_with w t \/ occurs (" " ++ w) t).

(** Empty or made of whitespace only. *)
Fixpoint all_space (s : string) : bool :=
  match s with
  | EmptyString => true
  | String c s' => isspace c && all_space s'
  end.

(** Whenever the backend answers with a first choice, its content is a
    non-empty [str]. *)
Definition backend_content_nonempty (env : Env) : Prop :=
  forall c req content rest,
    chat_create env c req = ChatResponse (content :: rest) ->
    exists s, content = Some s /\ s <> EmptyString.

Definition value_of {A : Type} (r : run A * TodoAgent) : outcome A := fst (fst r).
Definition calls_of {A : Type} (r : run A * TodoAgent) : list event := snd (fst r).
Definition agent_of {A : Type} (r : run A * TodoAgent) : TodoAgent := snd r.

Definition is_http_post (e : event) : bool :=
  match e with HttpPost _ => true | ChatCompletion _ _ => false end.

(** ** [_extract_todo_id] and [get_conversation_context] *)

(** The regular expression of [_extract_todo_id] is a sequence of
    one-character items: a hexadecimal digit or a literal character. *)
Inductive char_class : Type :=
| HexDigit
| Literal (c : ascii).

(** [[0-9a-f]] under [re.IGNORECASE]. *)
Definition is_hex (c : ascii) : bool :=
  let n := N_of_ascii c in
  ((48 <=? n) && (n <=? 57) || (97 <=? n) && (n <=? 102)
   || (65 <=? n) && (n <=? 70))%N.

Definition class_matches (k : char_class) (c : ascii) : bool :=
  match k with
  | HexDigit => is_hex c
  | Literal d => Ascii.eqb c d
  end.

Definition dash : ascii := "-"%char.

(** [[0-9a-f]{8}-[0-9a-f]{4}-[0-9a-f]{4}-[0-9a-f]{4}-[0-9a-f]{12}] *)
Definition uuid_pattern : list char_class :=
  (repeat HexDigit 8 ++ Literal dash :: repeat HexDigit 4
   ++ Literal dash :: repeat HexDigit 4 ++ Literal dash :: repeat HexDigit 4
   ++ Literal dash :: repeat HexDigit 12)%list.

(** The text matched when the pattern matches at the start of [s]. *)
Fixpoint match_here (pat : list char_class) (s : string) : option string :=
  match pat with
  | [] => Some EmptyString
  | k :: pat' =>
      match s with
      | EmptyString => None
      | String c s' =>
          if class_matches k c
          then option_map (String c) (match_here pat' s')
          else None
      end
  end.

(** [re.search(pat, s)] followed by [match.group(0)]: the leftmost match. *)
Fixpoint re_search (pat : list char_class) (s : string) : option string :=
  match match_here pat s with
  | Some m => Some m
  | None =>
      match s with
      | EmptyString => None
      | String _ s' => re_search pat s'
      end
  end.

Definition _extract_todo_id (message : string) : option string :=
  re_search uuid_pattern message.

Definition get_conversation_context (conversation_id user_id : string) : json :=
  JDict [("recent_messages", JList []); ("user_todos", JList [])].

Fixpoint all_hex (s : string) : bool :=
  match s with
  | EmptyString => true
  | String c s' => is_hex c && all_hex s'
  end.

(** [n] hexadecimal digits. *)
Definition hex_group (n : nat) (g : string) : Prop :=
  String.length g = n /\ all_hex g = true.

(** The canonical 8-4-4-4-12 shape. *)
Definition uuid_shaped (u : string) : Prop :=
  exists g1 g2 g3 g4 g5,
    u = g1 ++ String dash (g2 ++ String dash (g3 ++ String dash
          (g4 ++ String dash g5)))
    /\ hex_group 8 g1 /\ hex_group 4 g2 /\ hex_group 4 g3
    /\ hex_group 4 g4 /\ hex_group 12 g5.

(** No character of [s] is [c]. *)
Fixpoint lacks (c : ascii) (s : string) : bool :=
  match s with
  | EmptyString => true
  | String d s' => negb (Ascii.eqb d c) && lacks c s'
  end.

(** [k] occurs in [a ++ k ++ b] at offset [length a] and nowhere before. *)
Definition first_at (k a b : string) : Prop :=
  forall a1 b1, a ++ k ++ b = a1 ++ k ++ b1 ->
                String.length a <= String.length a1.

(** The [user_id] of the last call of a session, if any. *)
Definition last_user (inputs : list (Env * string * string))
    (before : option string) : option string :=
  match rev inputs with
  | [] => before
  | (_, u, _) :: _ => Some u
  end.

(** What [__init__] sets up and every call keeps. *)
Definition well_formed (self : TodoAgent) : Prop :=
  offline_mode self = negb (bool_of_key (openrouter_api_key self))
  /\ api_key self = openrouter_api_key self
  /\ model self = "openai/gpt-4o-mini"
  /\ base_url self = "https://openrouter.ai/api/v1"
  /\ (offline_mode self = true <-> client self = None)
  /\ (forall c, client self = Some c ->
                openrouter_api_key self = Some (client_api_key c)
                /\ client_base_url c = "https://openrouter.ai/api/v1").

(** The request [_process_with_ai] sends for a user and a message. *)
Definition chat_request_for (user_id_str message : string) : chat_request :=
  {| cr_model := "openai/gpt-4o-mini";
     cr_messages :=
       [("system", system_prompt);
        ("user", "User ID: " ++ user_id_str ++ nl ++ "Message: " ++ message)];
     cr_temperature := 7 # 10 |}.

(** Nothing to strip on the left. *)
Definition head_ok (s : string) : bool :=
  match s with
  | EmptyString => true
  | String c _ => negb (isspace c)
  end.

(** No character of [s] is whitespace. *)
Fixpoint lacks_space (s : string) : bool :=
  match s with
  | EmptyString => true
  | String c s' => negb (isspace c) && lacks_space s'
  end.

(** [rest] is empty or begins with a whitespace character. *)
Definition at_word_end (rest : string) : Prop :=
  rest = EmptyString
  \/ exists c rest', rest = String c rest' /\ isspace c = true.

(** The words of a text, told without running [split_ws]: a blank text has
    none; otherwise the text is blanks, then a non-empty word free of
    whitespace that ends where the text ends or whitespace begins, then a
    text with the remaining words. *)
Inductive tokenises : string -> list string -> Prop :=
| tokenises_blank (s : string) :
    all_space s = true -> tokenises s []
| tokenises_word (ws w rest : string) (l : list string) :
    all_space ws = true ->
    w <> EmptyString -> lacks_space w = true ->
    at_word_end rest ->
    tokenises rest l ->
    tokenises (ws ++ w ++ rest) (w :: l).

(** The text has at most three words. *)
Definition few_tokens (t : string) : Prop :=
  exists l, tokenises t l /\ List.length l <= 3.

(** Case analysis on every test of a cascade. *)
Ltac split_ifs :=
  repeat match goal with
         | |- context [if ?b then _ else _] => destruct b
         end.

(** ** Facts about the string primitives *)

Example lower_ex : lower "Create a TODO" = "create a todo".
Proof. reflexivity. Qed.
Example strip_ex : strip ("  hi there " ++ nl) = "hi there".
Proof. reflexivity. Qed.
Example split_ex : split_ws (" a  bc" ++ nl ++ "d ") = ["a"; "bc"; "d"].
Proof. reflexivity. Qed.
Example split1_ex : split1 "create todo to buy milk" "todo to" = ["create "; " buy milk"].
Proof. reflexivity. Qed.
Example replace_ex : replace "aaa to todo" "a" " " = "    to todo".
Proof. reflexivity. Qed.
Example replace_ex2 : replace "ababab" "aba" "X" = "Xbab".
Proof. reflexivity. Qed.
Example find_ex : find "add milk to list" "to" 0%Z = 9%Z.
Proof. reflexivity. Qed.
Example slice_ex : slice "add milk to list" 3%Z 9%Z = " milk ".
Proof. reflexivity. Qed.

Lemma append_nil_r (s : string) : s ++ EmptyString = s.
Proof. induction s as [|c s IH]; simpl; [reflexivity | now rewrite IH]. Qed.

Lemma append_assoc (a b c : string) : (a ++ b) ++ c = a ++ b ++ c.
Proof. induction a as [|x a IH]; simpl; [reflexivity | now rewrite IH]. Qed.

Lemma prefix_begins (k m : string) : prefix k m = true <-> begins_with k m.
Proof.
  unfold begins_with. revert m.
  induction k as [|c k IH]; intros m.
  - destruct m; simpl; split; intros; eauto.
  - destruct m as [|d m]; simpl.
    + split; [discriminate | intros [b Hb]; discriminate].
    + destruct (ascii_dec c d) as [->|Hcd].
      * rewrite IH. split; intros [b Hb]; exists b; congruence.
      * split; [discriminate | intros [b Hb]; congruence].
Qed.

Lemma contains_occurs (k m : string) : contains k m = true <-> occurs k m.
Proof.
  unfold occurs.
  induction m as [|c m IH].
  - cbn [contains]. rewrite orb_false_r, prefix_begins.
    split.
    + intros [b Hb]. exists EmptyString, b. exact Hb.
    + intros [a [b Hab]]. destruct a; [now exists b | discriminate].
  - cbn [contains]. rewrite orb_true_iff, prefix_begins, IH.
    split.
    + intros [[b Hb] | [a [b Hab]]].
      * exists EmptyString, b. exact Hb.
      * exists (String c a), b. simpl. now rewrite Hab.
    + intros [a [b Hab]]. destruct a as [|d a].
      * left. now exists b.
      * right. exists a, b. simpl in Hab. congruence.
Qed.

Lemma any_in_occurs (ws : list string) (m : string) :
  any_in ws m = true <-> exists k, In k ws /\ occurs k m.
Proof.
  unfold any_in. rewrite existsb_exists.
  split; intros [k [Hin Hk]]; exists k; split; auto;
    now apply contains_occurs.
Qed.

Lemma any_in_false (ws : list string) (m : string) :
  any_in ws m = false <-> forall k, In k ws -> contains k m = false.
Proof.
  unfold any_in. split.
  - intros H k Hk. destruct (contains k m) eqn:E; [|reflexivity].
    assert (existsb (fun w => contains w m) ws = true) as Ht
      by (apply existsb_exists; eauto).
    congruence.
  - intros H. destruct (existsb _ ws) eqn:E; [|reflexivity].
    apply existsb_exists in E. destruct E as [k [Hin Hk]].
    rewrite (H k Hin) in Hk. discriminate.
Qed.

(** A sub-table of a table that does not fire does not fire either. *)
Lemma any_in_sub (ws ws' : list string) (m : string) :
  incl ws' ws -> any_in ws m = false -> any_in ws' m = false.
Proof.
  intros Hincl H. apply any_in_false. intros k Hk.
  apply (proj1 (any_in_false ws m) H). now apply Hincl.
Qed.

Lemma isspace_lower_char (c : ascii) : isspace c = true -> lower_char c = c.
Proof.
  destruct c as [[] [] [] [] [] [] [] []]; intros H;
    solve [reflexivity | discriminate H].
Qed.

Lemma lower_all_space (s : string) : all_space s = true -> lower s = s.
Proof.
  induction s as [|c s IH]; simpl; [reflexivity|].
  intros H. apply andb_true_iff in H. destruct H as [Hc Hs].
  now rewrite (isspace_lower_char c Hc), (IH Hs).
Qed.

Lemma lstrip_all_space (s : string) : all_space s = true -> lstrip s = EmptyString.
Proof.
  induction s as [|c s IH]; simpl; [reflexivity|].
  intros H. apply andb_true_iff in H. destruct H as [Hc Hs].
  rewrite Hc. now apply IH.
Qed.

Lemma normalize_all_space (s : string) :
  all_space s = true -> normalize s = EmptyString.
Proof.
  intros H. unfold normalize, strip.
  now rewrite (lower_all_space s H), (lstrip_all_space s H).
Qed.

Lemma lower_length (s : string) : String.length (lower s) = String.length s.
Proof. induction s as [|c s IH]; simpl; [reflexivity | now rewrite IH]. Qed.

Lemma lower_app (a b : string) : lower (a ++ b) = lower a ++ lower b.
Proof. induction a as [|c a IH]; simpl; [reflexivity | now rewrite IH]. Qed.

Lemma lower_char_idem (c : ascii) : lower_char (lower_char c) = lower_char c.
Proof. destruct c as [[] [] [] [] [] [] [] []]; reflexivity. Qed.

Lemma lower_idem (s : string) : lower (lower s) = lower s.
Proof.
  induction s as [|c s IH]; simpl; [reflexivity|].
  now rewrite lower_char_idem, IH.
Qed.

(** A lower-case keyword found in the text is found in its lower-cased
    form as well. *)
Lemma occurs_lower (k m : string) :
  lower k = k -> occurs k m -> occurs k (lower m).
Proof.
  intros Hk [a [b ->]]. exists (lower a), (lower b).
  now rewrite !lower_app, Hk.
Qed.

(** ** Facts about the handlers *)

Lemma neq_by_eqb (a b : string) : String.eqb a b = false -> a <> b.
Proof. intros H. now apply String.eqb_neq. Qed.

Lemma handle_todo_in (u m : string) : In (_handle_todo_command u m) todo_templates.
Proof.
  unfold _handle_todo_command, todo_templates. split_ifs; cbn [In]; tauto.
Qed.

Lemma random_choice_in (r : nat) : In (random_choice r responses) responses.
Proof.
  unfold random_choice. apply nth_In.
  apply Nat.mod_upper_bound. discriminate.
Qed.

Lemma handle_general_in (env : Env) (m : string) :
  In (_handle_general_conversation env m) chat_templates
  \/ In (_handle_general_conversation env m) responses.
Proof.
  unfold _handle_general_conversation, chat_templates.
  split_ifs; try (left; cbn [In]; tauto).
  right. apply random_choice_in.
Qed.

Lemma offline_fallback_in (m : string) :
  In (_handle_offline_fallback m)
     [fallback_create; fallback_show; fallback_update; fallback_delete;
      fallback_generic].
Proof.
  unfold _handle_offline_fallback. split_ifs; cbn [In]; tauto.
Qed.

Lemma nonempty_of_in (l : list string) (s : string) :
  forallb truthy l = true -> In s l -> s <> EmptyString.
Proof.
  intros Hall Hin. rewrite forallb_forall in Hall.
  specialize (Hall s Hin). destruct s; [discriminate | congruence].
Qed.

Lemma handle_todo_nonempty (u m : string) : _handle_todo_command u m <> EmptyString.
Proof.
  apply (nonempty_of_in todo_templates); [reflexivity | apply handle_todo_in].
Qed.

Lemma handle_general_nonempty (env : Env) (m : string) :
  _handle_general_conversation env m <> EmptyString.
Proof.
  destruct (handle_general_in env m) as [H|H].
  - now apply (nonempty_of_in chat_templates).
  - now apply (nonempty_of_in responses).
Qed.

Lemma offline_fallback_nonempty (m : string) :
  _handle_offline_fallback m <> EmptyString.
Proof.
  eapply nonempty_of_in; [|apply offline_fallback_in]. reflexivity.
Qed.

(** ** The three routes of [process_message] *)

Section Routes.
Variable env : Env.
Variable self : TodoAgent.
Variables u m : string.

Lemma process_message_todo :
  _is_todo_command (normalize m) = true ->
  process_message env self u m
  = ((Ret (Some (_handle_todo_command u (normalize m))), []),
     set_current_user_id self u).
Proof.
  intros H. unfold process_message. fold (normalize m). now rewrite H.
Qed.

Lemma process_message_online :
  _is_todo_command (normalize m) = false ->
  offline_mode self = false ->
  process_message env self u m
  = (_process_with_ai env (set_current_user_id self u) u m,
     set_current_user_id self u).
Proof.
  intros H Hon. unfold process_message. fold (normalize m). rewrite H.
  cbn [offline_mode set_current_user_id]. rewrite Hon. cbn [negb].
  now destruct (_is_general_conversation (normalize m)).
Qed.

Lemma process_message_offline :
  _is_todo_command (normalize m) = false ->
  offline_mode self = true ->
  process_message env self u m
  = ((Ret (Some (if _is_general_conversation (normalize m)
                 then _handle_general_conversation env m
                 else offline_default)), []),
     set_current_user_id self u).
Proof.
  intros H Hoff. unfold process_message. fold (normalize m). rewrite H.
  cbn [offline_mode set_current_user_id]. rewrite Hoff. cbn [negb].
  now destruct (_is_general_conversation (normalize m)).
Qed.

Lemma agent_of_process_message :
  agent_of (process_message env self u m) = set_current_user_id self u.
Proof.
  unfold agent_of, process_message.
  cbn [offline_mode set_current_user_id].
  now split_ifs.
Qed.

End Routes.

(** What [_process_with_ai] can return while online: the content of the
    backend's first choice, or the offline fallback text.  It never goes
    through [_call_openrouter_api]. *)
Lemma process_with_ai_online (env : Env) (self : TodoAgent) (u m : string) :
  offline_mode self = false ->
  existsb is_http_post (snd (_process_with_ai env self u m)) = false
  /\ (fst (_process_with_ai env self u m)
      = Ret (Some (_handle_offline_fallback m))
      \/ exists c req content rest,
          chat_create env c req = ChatResponse (content :: rest)
          /\ fst (_process_with_ai env self u m) = Ret content).
Proof.
  intros Hon. unfold _process_with_ai. rewrite Hon.
  destruct (client self) as [c|]; [|split; [reflexivity | now left]].
  match goal with
  | |- context [chat_create env c ?r] =>
      destruct (chat_create env c r) as [[|content rest]|e] eqn:E
  end; cbn [fst snd try_except existsb is_http_post orb];
    (split; [reflexivity|]); try (now left).
  right. do 4 eexists. split; [exact E | reflexivity].
Qed.

Lemma process_with_ai_offline (env : Env) (self : TodoAgent) (u m : string) :
  offline_mode self = true ->
  _process_with_ai env self u m
  = (Ret (Some (_handle_offline_fallback m)), []).
Proof. intros H. unfold _process_with_ai. now rewrite H. Qed.

(** When the backend call raises, whatever the exception, the answer is
    the offline fallback text. *)
Lemma process_with_ai_raises (env : Env) (self : TodoAgent) (u m : string) :
  (forall c req, exists e, chat_create env c req = ChatRaises e) ->
  fst (_process_with_ai env self u m) = Ret (Some (_handle_offline_fallback m)).
Proof.
  intros Hraise. unfold _process_with_ai.
  destruct (offline_mode self); [reflexivity|].
  destruct (client self) as [c|]; [|reflexivity].
  match goal with
  | |- context [chat_create env c ?r] =>
      destruct (Hraise c r) as [e He]; rewrite He
  end.
  reflexivity.
Qed.

(** The fallback's keyword branches all test for todo keywords. *)
Lemma offline_fallback_guards (t : string) :
  _is_todo_command t = false ->
  any_in ["create"; "add"; "new"] t && contains "todo" t = false
  /\ any_in ["show"; "list"; "view"; "get"] t = false
  /\ any_in ["complete"; "finish"; "done"; "mark"] t = false
  /\ any_in ["delete"; "remove"] t = false.
Proof.
  unfold _is_todo_command. intros H.
  assert (forall ws,
             forallb (fun w => existsb (String.eqb w) todo_keywords) ws = true ->
             any_in ws t = false) as Hsub.
  { intros ws Hws. apply (any_in_sub todo_keywords); [|exact H].
    intros k Hk. rewrite forallb_forall in Hws. specialize (Hws k Hk).
    apply existsb_exists in Hws. destruct Hws as [k' [Hin Heq]].
    apply String.eqb_eq in Heq. now subst. }
  rewrite !Hsub by reflexivity. auto.
Qed.

Lemma offline_fallback_generic (m : string) :
  _is_todo_command (normalize m) = false ->
  _handle_offline_fallback m = fallback_generic.
Proof.
  intros H. unfold _handle_offline_fallback. fold (normalize m).
  destruct (offline_fallback_guards (normalize m) H) as [H1 [H2 [H3 H4]]].
  now rewrite H1, H2, H3, H4.
Qed.

Lemma classify_todo (t : string) :
  classify t = TodoCommand <-> _is_todo_command t = true.
Proof.
  unfold classify. destruct (_is_todo_command t);
    [tauto | destruct (_is_general_conversation t); split; discriminate].
Qed.

Lemma existsb_and_r {A : Type} (a : bool) (g : A -> bool) (l : list A) :
  existsb (fun n => a && g n) l = a && existsb g l.
Proof.
  induction l as [|x l IH]; cbn [existsb].
  - now rewrite andb_false_r.
  - rewrite IH. now destruct a, (g x).
Qed.

Lemma co_occur_any_in (verbs nouns : list string) (t : string) :
  co_occur verbs nouns t = any_in verbs t && any_in nouns t.
Proof.
  unfold co_occur, any_in.
  induction verbs as [|v verbs IH]; cbn [existsb]; [reflexivity|].
  rewrite IH, existsb_and_r.
  now destruct (contains v t), (existsb (fun w => contains w t) nouns),
    (existsb (fun w => contains w t) verbs).
Qed.

(** The handler's cascade is the spec's sub-intent resolution followed by
    the template lookup. *)
Lemma handle_todo_resolves (u t : string) :
  _handle_todo_command u t = template (resolveTodoSubIntent t).
Proof.
  unfold _handle_todo_command, resolveTodoSubIntent.
  rewrite !co_occur_any_in.
  now split_ifs.
Qed.

Lemma process_message_offline_step (env : Env) (self : TodoAgent) (u m : string) :
  offline_mode self = true ->
  calls_of (process_message env self u m) = []
  /\ offline_mode (agent_of (process_message env self u m)) = true
  /\ exists s, value_of (process_message env self u m) = Ret (Some s)
               /\ (In s offline_templates \/ In s responses).
Proof.
  intros Hoff. rewrite agent_of_process_message.
  destruct (_is_todo_command (normalize m)) eqn:Htodo.
  - rewrite process_message_todo by assumption.
    repeat split; try assumption.
    eexists. split; [reflexivity|]. left.
    unfold offline_templates. apply in_or_app. left. apply handle_todo_in.
  - rewrite process_message_offline by assumption.
    repeat split; try assumption.
    eexists. split; [reflexivity|].
    destruct (_is_general_conversation (normalize m)).
    + destruct (handle_general_in env m) as [H|H]; [left|now right].
      unfold offline_templates. apply in_or_app. right.
      apply in_or_app. now left.
    + left. unfold offline_templates. apply in_or_app. right.
      apply in_or_app. right. now left.
Qed.

(** ** C1: totality of [process_message] *)

(** With an online agent, a backend that answers with the empty string makes
    [process_message] return the empty string: the claim of C1 fails as
    stated. *)
Lemma C1_counterexample :
  value_of (process_message (env_answering (Some EmptyString))
                            (__init__ (Some "sk-test")) "u1" "hello there")
  = Ret (Some EmptyString)
  /\ ~ (forall env self u m,
          exists s, value_of (process_message env self u m) = Ret (Some s)
                    /\ s <> EmptyString).
Proof.
  split; [reflexivity|].
  intros H.
  destruct (H (env_answering (Some EmptyString))
              (__init__ (Some "sk-test")) "u1" "hello there") as [s [Hs Hne]].
  vm_compute in Hs. congruence.
Qed.

(** C1 (amended): [process_message] never raises, whatever the backend
    does; it returns a non-empty string for every message when the agent is
    offline, and also when every content the backend answers with is a
    non-empty string. *)
Theorem C1_process_message_total (env : Env) (self : TodoAgent) (u m : string) :
  (exists v, value_of (process_message env self u m) = Ret v
             /\ ((exists s, v = Some s /\ s <> EmptyString)
                 \/ (offline_mode self = false
                     /\ exists c req rest,
                         chat_create env c req = ChatResponse (v :: rest))))
  /\ (offline_mode self = true \/ backend_content_nonempty env ->
      exists s, value_of (process_message env self u m) = Ret (Some s)
                /\ s <> EmptyString).
Proof.
  destruct (_is_todo_command (normalize m)) eqn:Htodo.
  { rewrite process_message_todo by assumption. unfold value_of. cbn [fst].
    pose proof (handle_todo_nonempty u (normalize m)) as Hne.
    split; [|now eauto]. eexists. split; [reflexivity|]. left. eauto. }
  destruct (offline_mode self) eqn:Hmode.
  { rewrite process_message_offline by assumption. unfold value_of. cbn [fst].
    assert ((if _is_general_conversation (normalize m)
             then _handle_general_conversation env m
             else offline_default) <> EmptyString) as Hne
      by (destruct (_is_general_conversation (normalize m));
          [apply handle_general_nonempty | discriminate]).
    split; [|now eauto]. eexists. split; [reflexivity|]. left. eauto. }
  rewrite process_message_online by assumption. unfold value_of. cbn [fst].
  destruct (process_with_ai_online env (set_current_user_id self u) u m Hmode)
    as [_ [Hfb | [c [req [content [rest [Hreply Hval]]]]]]].
  - rewrite Hfb. pose proof (offline_fallback_nonempty m) as Hne.
    split; [|now eauto]. eexists. split; [reflexivity|]. left. eauto.
  - rewrite Hval. split.
    + eexists. split; [reflexivity|]. right. split; [reflexivity|]. eauto.
    + intros [Hoff | Hok]; [discriminate|].
      destruct (Hok c req content rest Hreply) as [s [-> Hne]]. eauto.
Qed.

Lemma C1_witness :
  exists s,
    value_of (process_message (env_answering (Some "Sure, tell me more."))
                              (__init__ (Some "sk-test")) "u1" "hello there")
    = Ret (Some s)
    /\ s <> EmptyString.
Proof.
  apply (proj2 (C1_process_message_total
                  (env_answering (Some "Sure, tell me more."))
                  (__init__ (Some "sk-test")) "u1" "hello there")).
  right. intros c req content rest H. cbn in H.
  injection H as <- _. eexists. split; [reflexivity | discriminate].
Defined.

(** ** C4: todo commands are answered without the backend *)

(** C4: for every message classified as a todo command, [process_message]
    returns the fixed acknowledgement of the resolved sub-intent and makes no
    outbound call, whether the agent is online or offline. *)
Theorem C4_todo_command_never_calls_ai
    (env : Env) (self : TodoAgent) (u m : string) :
  classify (normalize m) = TodoCommand ->
  value_of (process_message env self u m)
  = Ret (Some (template (resolveTodoSubIntent (normalize m))))
  /\ In (template (resolveTodoSubIntent (normalize m))) todo_templates
  /\ calls_of (process_message env self u m) = [].
Proof.
  intros H. apply classify_todo in H.
  rewrite process_message_todo by assumption.
  unfold value_of, calls_of. cbn [fst snd].
  rewrite <- (handle_todo_resolves u).
  repeat split. apply handle_todo_in.
Qed.

Lemma C4_witness :
  value_of (process_message (env_answering (Some "never asked"))
                            (__init__ (Some "sk-test")) "u1"
                            "Create a todo to buy milk")
  = Ret (Some (template (resolveTodoSubIntent
                           (normalize "Create a todo to buy milk"))))
  /\ In (template (resolveTodoSubIntent (normalize "Create a todo to buy milk")))
        todo_templates
  /\ calls_of (process_message (env_answering (Some "never asked"))
                               (__init__ (Some "sk-test")) "u1"
                               "Create a todo to buy milk") = [].
Proof.
  apply (C4_todo_command_never_calls_ai
           (env_answering (Some "never asked"))
           (__init__ (Some "sk-test")) "u1" "Create a todo to buy milk").
  reflexivity.
Defined.

(** ** C5: the offline agent stays off the network *)

(** C5: an agent built without a usable key is offline; on an offline agent
    no call of [process_message], in any sequence of calls on any inputs,
    makes an outbound call, and every answer is one of the fixed templates or
    a member of the fixed pool of replies. *)
Theorem C5_offline_never_calls_out :
  (forall getenv, bool_of_key getenv = false ->
                  offline_mode (__init__ getenv) = true)
  /\ (forall self inputs,
         offline_mode self = true ->
         snd (session self inputs) = []
         /\ offline_mode (snd (fst (session self inputs))) = true
         /\ Forall (fun v => exists s, v = Ret (Some s)
                                       /\ (In s offline_templates \/ In s responses))
                   (fst (fst (session self inputs)))).
Proof.
  split.
  { intros getenv H. unfold __init__. cbn [offline_mode]. now rewrite H. }
  intros self inputs. revert self.
  induction inputs as [|[[env u] m] rest IH]; intros self Hoff.
  { cbn. auto. }
  cbn [session].
  destruct (process_message_offline_step env self u m Hoff)
    as [Hcalls [Hoff' [s [Hval Hin]]]].
  unfold calls_of, value_of, agent_of in *.
  destruct (process_message env self u m) as [[r calls] self1].
  cbn [fst snd] in *.
  specialize (IH self1 Hoff').
  destruct (session self1 rest) as [[rs self2] calls'].
  cbn [fst snd] in *.
  destruct IH as [IHc [IHo IHf]].
  subst calls calls'. repeat split; try assumption.
  constructor; [|assumption]. eauto.
Qed.

Lemma C5_witness :
  snd (session (__init__ None)
         [(env_answering (Some "unused"), "u1", "hello");
          (env_raising TimeoutException, "u2", "delete my task");
          (env_status 500, "u1", "a b c d e f g")]) = [].
Proof.
  apply (proj2 C5_offline_never_calls_out (__init__ None)).
  apply (proj1 C5_offline_never_calls_out None). reflexivity.
Defined.

(** ** C8: what [process_message] leaves on the agent object *)

(** A call stores its [user_id] on the agent, so the agent object does
    change: the claim of C8 fails as stated. *)
Lemma C8_counterexample :
  agent_of (process_message (env_answering None) (__init__ None) "u1" "hello")
  <> __init__ None
  /\ current_user_id
       (agent_of (process_message (env_answering None) (__init__ None) "u1" "hello"))
     = Some "u1"
  /\ current_user_id (__init__ None) = None.
Proof.
  split; [|split; reflexivity].
  intros H. apply (f_equal current_user_id) in H. discriminate H.
Qed.

(** C8 (amended): [process_message] leaves the mode, both key fields, the
    model, the base URL and the client handle of the agent unchanged; the
    one field it writes is [current_user_id], which it sets to the [user_id]
    of the call. *)
Theorem C8_process_message_frame (env : Env) (self : TodoAgent) (u m : string) :
  same_config (agent_of (process_message env self u m)) self
  /\ current_user_id (agent_of (process_message env self u m)) = Some u.
Proof.
  rewrite agent_of_process_message. unfold same_config.
  cbn. repeat split.
Qed.

(** ** C10: the offline fallback behind the router *)

(** C10: for a message that is not a todo command, which is the only way
    [process_message] gets to [_process_with_ai] and from there to
    [_handle_offline_fallback], none of the fallback's keyword branches can
    fire: the fallback text is the generic offline sentence, and an online
    [process_message] returns either the backend's content or that
    sentence. *)
Theorem C10_fallback_is_generic (env : Env) (self : TodoAgent) (u m : string) :
  _is_todo_command (normalize m) = false ->
  (any_in ["create"; "add"; "new"] (normalize m)
   && contains "todo" (normalize m) = false
   /\ any_in ["show"; "list"; "view"; "get"] (normalize m) = false
   /\ any_in ["complete"; "finish"; "done"; "mark"] (normalize m) = false
   /\ any_in ["delete"; "remove"] (normalize m) = false)
  /\ _handle_offline_fallback m = fallback_generic
  /\ (offline_mode self = false ->
      process_message env self u m
      = (_process_with_ai env (set_current_user_id self u) u m,
         set_current_user_id self u)
      /\ (value_of (process_message env self u m) = Ret (Some fallback_generic)
          \/ exists c req content rest,
              chat_create env c req = ChatResponse (content :: rest)
              /\ value_of (process_message env self u m) = Ret content)).
Proof.
  intros Htodo. split; [now apply offline_fallback_guards|].
  split; [now apply offline_fallback_generic|].
  intros Hon. rewrite process_message_online by assumption.
  split; [reflexivity|]. unfold value_of. cbn [fst].
  destruct (process_with_ai_online env (set_current_user_id self u) u m Hon)
    as [_ [Hfb | Hreply]].
  - left. now rewrite Hfb, offline_fallback_generic.
  - now right.
Qed.

Lemma C10_witness :
  _handle_offline_fallback "What is the capital of France?" = fallback_generic.
Proof.
  apply (C10_fallback_is_generic (env_raising TimeoutException)
           (__init__ (Some "sk-test")) "u1" "What is the capital of France?").
  reflexivity.
Defined.

(** ** C7: empty and whitespace-only messages *)

(** The empty message and a message of blanks are classified as general
    conversation, not as [Other]: the claim of C7 fails as stated. *)
Lemma C7_counterexample :
  classify (normalize EmptyString) = GeneralConversation
  /\ classify (normalize "   ") = GeneralConversation
  /\ classify (normalize EmptyString) <> Other.
Proof. repeat split; try reflexivity. discriminate. Qed.

(** C7 (amended): every empty or whitespace-only message normalises to the
    empty text, which has no token and is therefore classified as
    [GeneralConversation] by the rule on at most three tokens; it is never
    classified as [TodoCommand] or [Other]. *)
Theorem C7_blank_is_general_conversation (m : string) :
  all_space m = true ->
  normalize m = EmptyString
  /\ token_count (normalize m) = 0
  /\ any_in general_keywords (normalize m) = false
  /\ classify (normalize m) = GeneralConversation.
Proof.
  intros H. rewrite (normalize_all_space m H). repeat split.
Qed.

Lemma C7_witness :
  classify (normalize ("  " ++ nl ++ " ")) = GeneralConversation.
Proof.
  apply (C7_blank_is_general_conversation ("  " ++ nl ++ " ")).
  reflexivity.
Defined.

(** ** C3: the classification rules *)

Lemma is_todo_command_spec (t : string) :
  _is_todo_command t = true <-> exists k, In k todo_keywords /\ occurs k t.
Proof. unfold _is_todo_command. apply any_in_occurs. Qed.

Lemma question_test_spec (t : string) :
  existsb (fun word => startswith t word || contains (" " ++ word) t)
          question_words = true
  <-> asks t.
Proof.
  unfold asks, startswith. rewrite existsb_exists.
  split; intros [w [Hin Hw]]; exists w; (split; [exact Hin|]).
  - apply orb_true_iff in Hw.
    destruct Hw as [Hw|Hw]; [left; now apply prefix_begins
                            | right; now apply contains_occurs].
  - apply orb_true_iff.
    destruct Hw as [Hw|Hw]; [left; now apply prefix_begins
                            | right; now apply contains_occurs].
Qed.

Lemma is_general_conversation_spec (t : string) :
  _is_general_conversation t = true
  <-> (exists k, In k general_keywords /\ occurs k t)
      \/ asks t
      \/ token_count t <= 3.
Proof.
  unfold _is_general_conversation, token_count.
  rewrite <- any_in_occurs, <- question_test_spec, <- Nat.leb_le.
  destruct (any_in general_keywords t); [tauto|].
  destruct (existsb _ question_words); [tauto|].
  destruct (List.length (split_ws t) <=? 3)%nat; [tauto|].
  split; [discriminate | intros [H|[H|H]]; discriminate].
Qed.

(** *** [split()] against the words of a text *)

Lemma tokenises_space (c : ascii) (s : string) (l : list string) :
  isspace c = true -> tokenises s l -> tokenises (String c s) l.
Proof.
  intros Hc H. destruct H as [s Hs | ws w rest l Hws Hne Hw Hend Hrest].
  - apply tokenises_blank. cbn. now rewrite Hc, Hs.
  - apply (tokenises_word (String c ws) w rest l); auto.
    cbn. now rewrite Hc, Hws.
Qed.

(** What [tokens] computes: the word the text begins with, possibly empty,
    and the words of what follows it. *)
Lemma tokens_spec (s : string) :
  lacks_space (fst (tokens s)) = true
  /\ exists rest,
      s = fst (tokens s) ++ rest /\ at_word_end rest
      /\ tokenises rest (snd (tokens s)).
Proof.
  induction s as [|c s IH].
  - cbn. split; [reflexivity|]. exists EmptyString.
    repeat split; [now left | now apply tokenises_blank].
  - cbn [tokens]. destruct (tokens s) as [t ts]. cbn [fst snd] in IH.
    destruct IH as [Ht (rest & -> & Hend & Hrest)].
    destruct (isspace c) eqn:Hc; cbn [fst snd].
    + split; [reflexivity|]. exists (String c (t ++ rest)).
      split; [reflexivity|]. split; [right; eauto|].
      destruct t as [|d t].
      * now apply tokenises_space.
      * apply (tokenises_word (String c EmptyString) (String d t) rest ts);
          auto; [cbn; now rewrite Hc | discriminate].
    + split; [cbn; now rewrite Hc, Ht|]. exists rest. auto.
Qed.

Lemma split_ws_tokenises (s : string) : tokenises s (split_ws s).
Proof.
  unfold split_ws. pose proof (tokens_spec s) as [Ht (rest & Hs & Hend & Hrest)].
  destruct (tokens s) as [t ts]. cbn [fst snd] in *.
  destruct t as [|d t].
  - cbn in Hs. now subst rest.
  - rewrite Hs.
    apply (tokenises_word EmptyString (String d t) rest ts); auto.
    discriminate.
Qed.

Lemma tokens_all_space (s : string) :
  all_space s = true -> tokens s = (EmptyString, []).
Proof.
  induction s as [|c s IH]; cbn [all_space tokens]; [reflexivity|].
  intros H. apply andb_true_iff in H. destruct H as [Hc Hs].
  now rewrite (IH Hs), Hc.
Qed.

Lemma split_ws_space (c : ascii) (s : string) :
  isspace c = true -> split_ws (String c s) = split_ws s.
Proof.
  intros Hc. unfold split_ws. cbn [tokens].
  destruct (tokens s) as [t ts]. now rewrite Hc.
Qed.

Lemma split_ws_leading (ws s : string) :
  all_space ws = true -> split_ws (ws ++ s) = split_ws s.
Proof.
  induction ws as [|c ws IH]; cbn [all_space append]; [reflexivity|].
  intros H. apply andb_true_iff in H. destruct H as [Hc Hws].
  now rewrite (split_ws_space c _ Hc), IH.
Qed.

Lemma tokens_at_word_end (rest : string) :
  at_word_end rest -> tokens rest = (EmptyString, split_ws rest).
Proof.
  intros [-> | (c & rest' & -> & Hc)]; [reflexivity|].
  unfold split_ws. cbn [tokens]. destruct (tokens rest') as [t ts].
  now rewrite Hc.
Qed.

Lemma tokens_word (w rest : string) :
  lacks_space w = true -> at_word_end rest ->
  tokens (w ++ rest) = (w, split_ws rest).
Proof.
  intros Hw Hend. induction w as [|d w IH]; cbn [append].
  - now apply tokens_at_word_end.
  - cbn in Hw. apply andb_true_iff in Hw. destruct Hw as [Hd Hw].
    apply negb_true_iff in Hd. cbn [tokens]. now rewrite (IH Hw), Hd.
Qed.

Lemma tokenises_split_ws (s : string) (l : list string) :
  tokenises s l -> split_ws s = l.
Proof.
  induction 1 as [s Hs | ws w rest l Hws Hne Hw Hend Hrest IH].
  - unfold split_ws. now rewrite (tokens_all_space s Hs).
  - rewrite (split_ws_leading ws _ Hws). unfold split_ws at 1.
    rewrite (tokens_word w rest Hw Hend), IH.
    destruct w; [contradiction | reflexivity].
Qed.

(** [split()] returns the words of the text, and nothing else does. *)
Lemma split_ws_spec (s : string) (l : list string) :
  tokenises s l <-> split_ws s = l.
Proof.
  split; [apply tokenises_split_ws | intros <-; apply split_ws_tokenises].
Qed.

Lemma few_tokens_spec (t : string) : few_tokens t <-> token_count t <= 3.
Proof.
  unfold few_tokens, token_count. split.
  - intros (l & Hl & Hlen). now rewrite (tokenises_split_ws t l Hl).
  - intros H. exists (split_ws t). split; [apply split_ws_tokenises | exact H].
Qed.

(** C3: on the normalised text the rules apply in order: a todo keyword
    occurring anywhere gives [TodoCommand]; failing that, a small-talk
    keyword, an interrogative word at the start or after a blank, or at most
    three tokens give [GeneralConversation]; everything else is [Other].
    The tokens are the maximal runs of non-whitespace characters of the
    text, which is what [split()] returns.  The three sample messages are
    classified as the claim says, the last one by the token rule alone; a
    text of three plain words is general conversation by that rule, and
    texts of four and of five plain words are [Other]. *)
Theorem C3_classification_rules :
  (forall t,
      (classify t = TodoCommand
       <-> exists k, In k todo_keywords /\ occurs k t)
      /\ (classify t = GeneralConversation
          <-> ~ (exists k, In k todo_keywords /\ occurs k t)
              /\ ((exists k, In k general_keywords /\ occurs k t)
                  \/ asks t
                  \/ few_tokens t))
      /\ (classify t = Other
          <-> ~ (exists k, In k todo_keywords /\ occurs k t)
              /\ ~ ((exists k, In k general_keywords /\ occurs k t)
                    \/ asks t
                    \/ few_tokens t))
      /\ (classify t = Other ->
          exists l, tokenises t l /\ 3 < List.length l))
  /\ (forall t l, tokenises t l <-> split_ws t = l)
  /\ normalize "Create a todo to buy milk" = "create a todo to buy milk"
  /\ classify "create a todo to buy milk" = TodoCommand
  /\ classify (normalize "hi there") = GeneralConversation
  /\ normalize "xyz123" = "xyz123"
  /\ classify "xyz123" = GeneralConversation
  /\ any_in todo_keywords "xyz123" = false
  /\ any_in general_keywords "xyz123" = false
  /\ ~ asks "xyz123"
  /\ tokenises "xyz123" ["xyz123"]
  /\ token_count "xyz123" = 1
  /\ split_ws ("  buy   oat" ++ nl ++ "bread now ") = ["buy"; "oat"; "bread"; "now"]
  /\ classify "one two three" = GeneralConversation
  /\ any_in general_keywords "one two three" = false
  /\ ~ asks "one two three"
  /\ tokenises "one two three" ["one"; "two"; "three"]
  /\ classify "one two three four" = Other
  /\ tokenises "one two three four" ["one"; "two"; "three"; "four"]
  /\ classify (normalize "  Lorem ipsum dolor sit amet ") = Other
  /\ tokenises (normalize "  Lorem ipsum dolor sit amet ")
               ["lorem"; "ipsum"; "dolor"; "sit"; "amet"].
Proof.
  split.
  { intros t.
    pose proof (is_todo_command_spec t) as Ht.
    pose proof (is_general_conversation_spec t) as Hg.
    rewrite <- few_tokens_spec in Hg.
    assert (classify t = Other ->
            exists l, tokenises t l /\ 3 < List.length l) as Hother.
    { intros Hc. exists (split_ws t). split; [apply split_ws_tokenises|].
      unfold classify in Hc.
      destruct (_is_todo_command t); [discriminate|].
      destruct (_is_general_conversation t) eqn:Hgc; [discriminate|].
      destruct (Nat.le_gt_cases (List.length (split_ws t)) 3) as [Hle|Hgt];
        [|exact Hgt].
      assert (false = true) as Hyes
          by (apply Hg; right; right; apply few_tokens_spec; exact Hle).
      discriminate Hyes. }
    split; [|split; [|split; [|exact Hother]]]; clear Hother;
      unfold classify;
      destruct (_is_todo_command t); destruct (_is_general_conversation t);
      split;
      try discriminate; try reflexivity; try tauto;
      try (intros [Hn _]; exfalso; apply Hn; now apply Ht);
      try (intros _; now apply Ht);
      try (intros _; split; [intros H; apply Ht in H; discriminate
                            | first [now apply Hg
                                    | intros H; apply Hg in H; discriminate]]);
      try (intros [_ H]; first [apply Hg in H; discriminate
                               | exfalso; apply H; now apply Hg]);
      try (intros H; apply Ht in H; discriminate). }
  split; [exact split_ws_spec|].
  repeat split; try reflexivity;
    try (apply split_ws_spec; reflexivity);
    intros H; apply question_test_spec in H; discriminate H.
Qed.

(** ** C6: sub-intent resolution *)

Lemma co_occur_spec (verbs nouns : list string) (t : string) :
  co_occur verbs nouns t = true <-> co_occurs verbs nouns t.
Proof.
  unfold co_occurs. rewrite co_occur_any_in, andb_true_iff, !any_in_occurs.
  split.
  - intros [[v [Hv Hvo]] [n [Hn Hno]]]. exists v, n. auto.
  - intros [v [n [Hv [Hn [Hvo Hno]]]]]. split; eauto.
Qed.

Lemma template_inj (i j : TodoSubIntent) : template i = template j -> i = j.
Proof.
  destruct i, j; intros H; try reflexivity;
    exfalso; revert H; apply neq_by_eqb; reflexivity.
Qed.

(** C6: the handler of todo commands answers with the template of the
    sub-intent that the precedence rules select, Create before List before
    Complete before Delete, and [Unrecognized] when no rule applies; the
    five templates are distinct, and the five sample texts resolve as the
    claim says. *)
Theorem C6_sub_intent_precedence :
  (forall u t, _handle_todo_command u t = template (resolveTodoSubIntent t))
  /\ (forall i j, template i = template j -> i = j)
  /\ (forall t,
        let create := co_occurs ["create"; "add"; "new"; "make"] ["todo"; "task"] t in
        let list_ := co_occurs ["show"; "list"; "view"; "get"]
                               ["todo"; "task"; "todos"; "tasks"] t in
        let complete := co_occurs ["complete"; "finish"; "done"; "mark"]
                                  ["todo"; "task"] t in
        let delete := co_occurs ["delete"; "remove"] ["todo"; "task"] t in
        (resolveTodoSubIntent t = Create <-> create)
        /\ (resolveTodoSubIntent t = ListTodos <-> ~ create /\ list_)
        /\ (resolveTodoSubIntent t = Complete
            <-> ~ create /\ ~ list_ /\ complete)
        /\ (resolveTodoSubIntent t = Delete
            <-> ~ create /\ ~ list_ /\ ~ complete /\ delete)
        /\ (resolveTodoSubIntent t = Unrecognized
            <-> ~ create /\ ~ list_ /\ ~ complete /\ ~ delete))
  /\ (forall u, _handle_todo_command u "create a new todo" = create_ack)
  /\ (forall u, _handle_todo_command u "show me my todos" = list_ack)
  /\ (forall u, _handle_todo_command u "mark todo abc as done" = complete_ack)
  /\ (forall u, _handle_todo_command u "delete that task" = delete_ack)
  /\ (forall u, _handle_todo_command u "todo stuff" = manage_hint)
  /\ map resolveTodoSubIntent
         ["create a new todo"; "show me my todos"; "mark todo abc as done";
          "delete that task"; "todo stuff"]
     = [Create; ListTodos; Complete; Delete; Unrecognized].
Proof.
  split; [exact handle_todo_resolves|].
  split; [exact template_inj|].
  split; [|repeat split; reflexivity].
  intros t. cbv zeta.
  rewrite <- !co_occur_spec. unfold resolveTodoSubIntent.
  destruct (co_occur ["create"; "add"; "new"; "make"] ["todo"; "task"] t);
  destruct (co_occur ["show"; "list"; "view"; "get"]
                     ["todo"; "task"; "todos"; "tasks"] t);
  destruct (co_occur ["complete"; "finish"; "done"; "mark"] ["todo"; "task"] t);
  destruct (co_occur ["delete"; "remove"] ["todo"; "task"] t);
  repeat split; try discriminate; try reflexivity; try tauto;
    intuition discriminate.
Qed.

(** ** C2: transport failures *)

Lemma http_error_content_mentions (status : N) :
  occurs (str_of_N status) (http_error_content status)
  /\ http_error_content status <> EmptyString.
Proof.
  split.
  - exists "API Error ". eexists. reflexivity.
  - unfold http_error_content. cbn. discriminate.
Qed.

Example http_error_content_samples :
  http_error_content 500
  = "API Error 500: I'm having trouble connecting to my AI services. What would you like to do with your todos?"
  /\ http_error_content 404
     = "API Error 404: I'm having trouble connecting to my AI services. What would you like to do with your todos?"
  /\ str_of_N 0 = "0" /\ str_of_N 199 = "199".
Proof. repeat split. Qed.

Lemma call_openrouter_raise (env : Env) (self : TodoAgent)
    (messages : json) (tools : list json) (e : exn) :
  http_post env (openrouter_request self messages tools) = PostRaises e ->
  fst (_call_openrouter_api env self messages tools)
  = Ret (mock_response
           (if is_TimeoutException e then timeout_content
            else if is_RequestError e then network_content
            else match e with
                 | HTTPStatusError code => http_error_content code
                 | _ => unexpected_content
                 end)).
Proof.
  intros H. unfold _call_openrouter_api. rewrite H.
  now destruct e.
Qed.

Lemma call_openrouter_status (env : Env) (self : TodoAgent)
    (messages : json) (tools : list json) (status : N) (body : outcome json) :
  http_post env (openrouter_request self messages tools) = Replied status body ->
  ((200 <=? status) && (status <? 300))%N = false ->
  fst (_call_openrouter_api env self messages tools)
  = Ret (mock_response (http_error_content status)).
Proof.
  intros H Hs. unfold _call_openrouter_api, raise_for_status. rewrite H, Hs.
  reflexivity.
Qed.

Lemma call_openrouter_returns (env : Env) (self : TodoAgent)
    (messages : json) (tools : list json) :
  exists j, fst (_call_openrouter_api env self messages tools) = Ret j.
Proof.
  unfold _call_openrouter_api, raise_for_status.
  destruct (http_post env _) as [status [j|e]|e]; cbn [fst].
  - destruct ((200 <=? status) && (status <? 300))%N; cbn; eauto.
  - destruct ((200 <=? status) && (status <? 300))%N; cbn;
      [destruct e | ]; cbn; eauto.
  - destruct e; cbn; eauto.
Qed.

(** When the backend answers with status 500, the client's own answer is
    the apology naming 500, while the router answers with the generic offline
    sentence, which names no status: the string that reaches the router's
    caller is not the client's, and the claim of C2 fails as stated.  The
    same happens on a timeout. *)
Lemma C2_counterexample :
  fst (_call_openrouter_api (env_status 500) (__init__ (Some "sk-test"))
         (JList []) [])
  = Ret (mock_response (http_error_content 500))
  /\ value_of (process_message (env_status 500) (__init__ (Some "sk-test"))
                 "u1" "hello there")
     = Ret (Some fallback_generic)
  /\ fallback_generic <> http_error_content 500
  /\ contains "500" fallback_generic = false
  /\ fst (_call_openrouter_api (env_raising TimeoutException)
            (__init__ (Some "sk-test")) (JList []) [])
     = Ret (mock_response timeout_content)
  /\ value_of (process_message (env_raising TimeoutException)
                 (__init__ (Some "sk-test")) "u1" "hello there")
     = Ret (Some fallback_generic)
  /\ fallback_generic <> timeout_content.
Proof.
  repeat split; apply neq_by_eqb; reflexivity.
Qed.

(** C2 (amended): [_call_openrouter_api] never raises; when the transport
    times out, is unreachable, answers with a status outside 2xx, or raises
    anything else, it returns a response whose content is the matching
    non-empty apology, the one for a status naming that status in decimal.
    The router does not go through this client: when its own backend call
    raises, whatever the exception, [process_message] returns the offline
    fallback text of the message, which for a message that is not a todo
    command is the generic offline sentence. *)
Theorem C2_transport_failures_absorbed
    (env : Env) (self : TodoAgent) (messages : json) (tools : list json)
    (u m : string) :
  let reply := http_post env (openrouter_request self messages tools) in
  let answer := fst (_call_openrouter_api env self messages tools) in
  (exists j, answer = Ret j)
  /\ (reply = PostRaises TimeoutException ->
      answer = Ret (mock_response timeout_content))
  /\ (reply = PostRaises RequestError ->
      answer = Ret (mock_response network_content))
  /\ (forall status,
         reply = PostRaises (HTTPStatusError status)
         \/ (exists body, reply = Replied status body
                          /\ ((200 <=? status) && (status <? 300))%N = false) ->
         answer = Ret (mock_response (http_error_content status)))
  /\ (forall e, reply = PostRaises e ->
                is_RequestError e = false -> is_HTTPStatusError e = false ->
                answer = Ret (mock_response unexpected_content))
  /\ (forall s, content_of (mock_response s) = Some s)
  /\ forallb truthy [timeout_content; network_content; unexpected_content] = true
  /\ (forall status, occurs (str_of_N status) (http_error_content status)
                     /\ http_error_content status <> EmptyString)
  /\ ((forall c req, exists e, chat_create env c req = ChatRaises e) ->
      existsb is_http_post (calls_of (process_message env self u m)) = false
      /\ (_is_todo_command (normalize m) = false ->
          offline_mode self = false ->
          process_message env self u m
          = (_process_with_ai env (set_current_user_id self u) u m,
             set_current_user_id self u)
          /\ value_of (process_message env self u m)
             = Ret (Some (_handle_offline_fallback m))
          /\ _handle_offline_fallback m = fallback_generic)).
Proof.
  cbv zeta.
  split; [apply call_openrouter_returns|].
  split; [intros H; now rewrite (call_openrouter_raise _ _ _ _ _ H)|].
  split; [intros H; now rewrite (call_openrouter_raise _ _ _ _ _ H)|].
  split.
  { intros status [H | [body [H Hs]]].
    - now rewrite (call_openrouter_raise _ _ _ _ _ H).
    - now apply (call_openrouter_status _ _ _ _ _ body). }
  split.
  { intros e H Hr Hh. rewrite (call_openrouter_raise _ _ _ _ _ H).
    destruct e; try reflexivity; discriminate. }
  split; [reflexivity|].
  split; [reflexivity|].
  split; [apply http_error_content_mentions|].
  intros Hraise. split.
  - destruct (_is_todo_command (normalize m)) eqn:Htodo.
    + now rewrite process_message_todo.
    + destruct (offline_mode self) eqn:Hmode.
      * now rewrite process_message_offline.
      * rewrite process_message_online by assumption.
        unfold calls_of. cbn [fst].
        now apply process_with_ai_online.
  - intros Htodo Hon. rewrite process_message_online by assumption.
    unfold value_of. cbn [fst]. split; [reflexivity|]. split.
    + now apply process_with_ai_raises.
    + now apply offline_fallback_generic.
Qed.

Lemma C2_witness :
  fst (_call_openrouter_api (env_status 500) (__init__ (Some "sk-test"))
         (JList []) [])
  = Ret (mock_response (http_error_content 500))
  /\ value_of (process_message (env_status 500) (__init__ (Some "sk-test"))
                 "u1" "hello there")
     = Ret (Some (_handle_offline_fallback "hello there")).
Proof.
  pose proof (C2_transport_failures_absorbed (env_status 500)
                (__init__ (Some "sk-test")) (JList []) [] "u1" "hello there")
    as [_ [_ [_ [Hstatus [_ [_ [_ [_ Hrouter]]]]]]]].
  split.
  - apply Hstatus. right. eexists. split; reflexivity.
  - apply (proj2 (Hrouter (fun c req => ex_intro _ _ eq_refl)));
      reflexivity.
Defined.

(** ** C9: title extraction *)

Lemma contains_index (k m : string) :
  contains k m = match index 0 k m with Some _ => true | None => false end.
Proof.
  induction m as [|c m IH].
  - destruct k; reflexivity.
  - cbn [contains index]. rewrite IH.
    destruct (prefix k (String c m)); [reflexivity|].
    now destruct (index 0 k m).
Qed.

(** Whenever the text holds the first pattern, the function returns what
    follows its first occurrence, trimmed, be it empty or not. *)
Lemma extract_title_first_pattern (message : string) (i : nat) :
  index 0 "todo to" message = Some i ->
  _extract_todo_title message
  = Some (strip (substring (i + 7) (String.length message - (i + 7)) message)).
Proof.
  intros Hi.
  assert (contains "todo to" (lower message) = true) as Hlow.
  { apply contains_occurs, occurs_lower; [reflexivity|].
    apply contains_occurs. now rewrite contains_index, Hi. }
  unfold _extract_todo_title, split1. rewrite Hlow, Hi. reflexivity.
Qed.

(** C9: the two sample titles come out as the claim says.  A text that ends
    in the first pattern, or has nothing between [add] and [to], makes the
    function return the empty string instead of moving on; and a text that
    holds the first pattern in capitals only is sent straight to the
    stop-word fallback, although the second pattern is there. *)
Theorem C9_extract_title_samples :
  _extract_todo_title "create todo to buy milk" = Some "buy milk"
  /\ _extract_todo_title "todo: clean house" = Some "clean house"
  /\ _extract_todo_title "create todo to" = Some EmptyString
  /\ _extract_todo_title "add to" = Some EmptyString
  /\ _extract_todo_title "TODO TO x todo: y" = Some "TODO TO x  : y"
  /\ _extract_todo_title "create a new todo" = None.
Proof. repeat split. Qed.

(** ** [_extract_todo_id]: the UUID search *)

Lemma length_app (a b : string) :
  String.length (a ++ b) = String.length a + String.length b.
Proof. induction a as [|c a IH]; cbn; [reflexivity | now rewrite IH]. Qed.

Lemma match_here_nil (s u : string) :
  match_here [] s = Some u <-> u = EmptyString.
Proof. cbn. split; congruence. Qed.

Lemma match_literal (c : ascii) (pat : list char_class) (s u : string) :
  match_here (Literal c :: pat) s = Some u
  <-> exists s' u', s = String c s' /\ u = String c u'
                    /\ match_here pat s' = Some u'.
Proof.
  cbn [match_here class_matches]. destruct s as [|d s].
  - split; [discriminate | intros (s' & u' & H & _); discriminate].
  - destruct (Ascii.eqb_spec d c) as [->|Hdc].
    + destruct (match_here pat s) as [m|] eqn:Hm; cbn [option_map].
      * split.
        -- intros [= <-]. eauto.
        -- intros (s' & u' & [= <-] & -> & Hu). congruence.
      * split; [discriminate|].
        intros (s' & u' & [= <-] & _ & Hu). congruence.
    + split; [discriminate|]. intros (s' & u' & [= -> _] & _). congruence.
Qed.

Lemma match_hex_group (n : nat) (pat : list char_class) (s u : string) :
  match_here (repeat HexDigit n ++ pat) s = Some u
  <-> exists g s' u', s = g ++ s' /\ u = g ++ u' /\ hex_group n g
                      /\ match_here pat s' = Some u'.
Proof.
  unfold hex_group. revert s u. induction n as [|n IH]; intros s u.
  - cbn [repeat app]. split.
    + intros H. exists EmptyString, s, u. auto.
    + intros (g & s' & u' & -> & -> & [Hlen _] & H).
      destruct g; [exact H | discriminate].
  - cbn [repeat app match_here class_matches]. destruct s as [|c s].
    + split; [discriminate|].
      intros (g & s' & u' & Hs & _ & [Hlen _] & _).
      destruct g; discriminate.
    + split.
      * destruct (is_hex c) eqn:Hc; [|discriminate].
        destruct (match_here (repeat HexDigit n ++ pat) s) as [m|] eqn:Hm;
          [|discriminate].
        intros [= <-]. apply IH in Hm.
        destruct Hm as (g & s' & u' & -> & -> & [Hlen Hhex] & H).
        exists (String c g), s', u'. cbn. rewrite Hc, Hlen. auto.
      * intros (g & s' & u' & Hs & -> & [Hlen Hhex] & H).
        destruct g as [|d g]; [discriminate|].
        cbn in Hs, Hlen, Hhex. injection Hs as -> ->.
        apply andb_true_iff in Hhex. destruct Hhex as [Hd Hg].
        rewrite Hd.
        assert (match_here (repeat HexDigit n ++ pat) (g ++ s') = Some (g ++ u'))
          as -> by (apply IH; exists g, s', u'; auto).
        reflexivity.
Qed.

(** The pattern matches at the start of [s] exactly when [s] begins with a
    text of the 8-4-4-4-12 shape, and that text is what is matched. *)
Lemma match_uuid (s u : string) :
  match_here uuid_pattern s = Some u <-> begins_with u s /\ uuid_shaped u.
Proof.
  unfold uuid_pattern, begins_with, uuid_shaped.
  change (repeat HexDigit 12) with (repeat HexDigit 12 ++ [])%list.
  split.
  - intros H.
    apply match_hex_group in H. destruct H as (g1 & s1 & u1 & -> & -> & H1 & H).
    apply match_literal in H. destruct H as (s2 & u2 & -> & -> & H).
    apply match_hex_group in H. destruct H as (g2 & s3 & u3 & -> & -> & H2 & H).
    apply match_literal in H. destruct H as (s4 & u4 & -> & -> & H).
    apply match_hex_group in H. destruct H as (g3 & s5 & u5 & -> & -> & H3 & H).
    apply match_literal in H. destruct H as (s6 & u6 & -> & -> & H).
    apply match_hex_group in H. destruct H as (g4 & s7 & u7 & -> & -> & H4 & H).
    apply match_literal in H. destruct H as (s8 & u8 & -> & -> & H).
    apply match_hex_group in H. destruct H as (g5 & s9 & u9 & -> & -> & H5 & H).
    apply match_here_nil in H. subst u9. rewrite append_nil_r.
    split.
    + exists s9.
      repeat (rewrite ?append_assoc; cbn [append]). reflexivity.
    + exists g1, g2, g3, g4, g5. auto 10.
  - intros [[b ->] (g1 & g2 & g3 & g4 & g5 & -> & H1 & H2 & H3 & H4 & H5)].
    apply match_hex_group. exists g1. do 2 eexists.
    split; [repeat (rewrite ?append_assoc; cbn [append]); reflexivity|].
    split; [reflexivity|]. split; [exact H1|].
    apply match_literal. do 2 eexists. do 2 (split; [reflexivity|]).
    apply match_hex_group. exists g2. do 2 eexists.
    do 2 (split; [reflexivity|]). split; [exact H2|].
    apply match_literal. do 2 eexists. do 2 (split; [reflexivity|]).
    apply match_hex_group. exists g3. do 2 eexists.
    do 2 (split; [reflexivity|]). split; [exact H3|].
    apply match_literal. do 2 eexists. do 2 (split; [reflexivity|]).
    apply match_hex_group. exists g4. do 2 eexists.
    do 2 (split; [reflexivity|]). split; [exact H4|].
    apply match_literal. do 2 eexists. do 2 (split; [reflexivity|]).
    apply match_hex_group. exists g5, b, EmptyString.
    split; [reflexivity|]. split; [now rewrite append_nil_r|].
    split; [exact H5 | reflexivity].
Qed.

Lemma re_search_some (pat : list char_class) (s u : string) :
  re_search pat s = Some u ->
  exists a s', s = a ++ s' /\ match_here pat s' = Some u
               /\ forall a1 s1, s = a1 ++ s1 ->
                                String.length a1 < String.length a ->
                                match_here pat s1 = None.
Proof.
  revert u. induction s as [|c s IH]; intros u; cbn [re_search].
  - destruct (match_here pat EmptyString) as [m|] eqn:Hm; [|discriminate].
    intros [= <-]. exists EmptyString, EmptyString.
    repeat split; auto. cbn. intros a1 s1 _ Hlt. inversion Hlt.
  - destruct (match_here pat (String c s)) as [m|] eqn:Hm.
    + intros [= <-]. exists EmptyString, (String c s).
      repeat split; auto. cbn. intros a1 s1 _ Hlt. inversion Hlt.
    + intros H. destruct (IH u H) as (a & s' & -> & Hu & Hleft).
      exists (String c a), s'. repeat split; auto.
      intros a1 s1 Hs Hlt. destruct a1 as [|d a1].
      * cbn in Hs. now subst s1.
      * cbn in Hs. injection Hs as <- Hs. apply (Hleft a1 s1 Hs).
        cbn in Hlt. lia.
Qed.

Lemma re_search_none (pat : list char_class) (s : string) :
  re_search pat s = None
  <-> forall a s', s = a ++ s' -> match_here pat s' = None.
Proof.
  induction s as [|c s IH]; cbn [re_search].
  - destruct (match_here pat EmptyString) as [m|] eqn:Hm.
    + split; [discriminate|]. intros H.
      rewrite (H EmptyString EmptyString eq_refl) in Hm. discriminate.
    + split; [|reflexivity]. intros _ a s' Hs.
      destruct a; [|discriminate]. cbn in Hs. now subst s'.
  - destruct (match_here pat (String c s)) as [m|] eqn:Hm.
    + split; [discriminate|]. intros H.
      rewrite (H EmptyString (String c s) eq_refl) in Hm. discriminate.
    + rewrite IH. split.
      * intros H a s' Hs. destruct a as [|d a].
        -- cbn in Hs. now subst s'.
        -- cbn in Hs. injection Hs as _ Hs. now apply (H a).
      * intros H a s' Hs. apply (H (String c a)). cbn. now rewrite Hs.
Qed.

(** X1: [_extract_todo_id] returns a text only if it has the UUID shape and
    stands in the message as returned, upper-case digits included, and no
    UUID-shaped text starts further left. *)
Theorem extract_todo_id_sound (message u : string) :
  _extract_todo_id message = Some u ->
  uuid_shaped u
  /\ String.length u = 36
  /\ exists a b,
      message = a ++ u ++ b
      /\ forall a1 u1 b1, message = a1 ++ u1 ++ b1 -> uuid_shaped u1 ->
                          String.length a <= String.length a1.
Proof.
  unfold _extract_todo_id. intros H.
  destruct (re_search_some _ _ _ H) as (a & s' & -> & Hm & Hleft).
  apply match_uuid in Hm. destruct Hm as [[b ->] Hu].
  split; [exact Hu|]. split.
  { destruct Hu as (g1 & g2 & g3 & g4 & g5 & -> & [L1 _] & [L2 _] & [L3 _]
                    & [L4 _] & [L5 _]).
    repeat (rewrite ?length_app; cbn [String.length]). lia. }
  exists a, b. split; [reflexivity|].
  intros a1 u1 b1 Hs Hu1.
  destruct (Nat.le_gt_cases (String.length a) (String.length a1)) as [Hle|Hlt];
    [exact Hle|].
  pose proof (Hleft a1 (u1 ++ b1) Hs Hlt) as Hnone.
  assert (match_here uuid_pattern (u1 ++ b1) = Some u1) as Hsome
      by (apply match_uuid; split; [now exists b1 | exact Hu1]).
  congruence.
Qed.

Lemma extract_todo_id_sound_witness :
  uuid_shaped "123E4567-e89b-12d3-a456-426614174000".
Proof.
  apply (extract_todo_id_sound
           "complete todo 123E4567-e89b-12d3-a456-426614174000 now"
           "123E4567-e89b-12d3-a456-426614174000").
  reflexivity.
Defined.

(** X2: [_extract_todo_id] returns [None] exactly when no UUID-shaped text
    occurs in the message. *)
Theorem extract_todo_id_none_iff (message : string) :
  _extract_todo_id message = None
  <-> ~ exists u, uuid_shaped u /\ occurs u message.
Proof.
  unfold _extract_todo_id, occurs. rewrite re_search_none. split.
  - intros H (u & Hu & a & b & ->).
    assert (match_here uuid_pattern (u ++ b) = Some u) as Hsome
        by (apply match_uuid; split; [now exists b | exact Hu]).
    rewrite (H a (u ++ b) eq_refl) in Hsome. discriminate.
  - intros H a s' ->.
    destruct (match_here uuid_pattern s') as [u|] eqn:Hm; [|reflexivity].
    exfalso. apply H. apply match_uuid in Hm. destruct Hm as [[b ->] Hu].
    exists u. split; [exact Hu|]. now exists a, b.
Qed.

Lemma is_hex_not_dash (c : ascii) : is_hex c = true -> Ascii.eqb c dash = false.
Proof.
  destruct c as [[] [] [] [] [] [] [] []]; intros H;
    solve [reflexivity | discriminate H].
Qed.

Lemma all_hex_lacks_dash (g : string) : all_hex g = true -> lacks dash g = true.
Proof.
  induction g as [|c g IH]; cbn; [reflexivity|].
  intros H. apply andb_true_iff in H. destruct H as [Hc Hg].
  now rewrite (is_hex_not_dash c Hc), (IH Hg).
Qed.

Lemma lacks_app (c : ascii) (a b : string) :
  lacks c (a ++ b) = lacks c a && lacks c b.
Proof.
  induction a as [|d a IH]; cbn; [reflexivity|].
  now rewrite IH, andb_assoc.
Qed.

Lemma lacks_get (c : ascii) (s : string) (n : nat) :
  lacks c s = true -> get n s <> Some c.
Proof.
  revert n. induction s as [|d s IH]; intros n; cbn; [discriminate|].
  intros H. apply andb_true_iff in H. destruct H as [Hd Hs].
  destruct n as [|n]; [|now apply IH].
  intros [= ->]. now rewrite Ascii.eqb_refl in Hd.
Qed.

Lemma get_after (g : string) (c : ascii) (rest : string) :
  get (String.length g) (g ++ String c rest) = Some c.
Proof. induction g as [|d g IH]; cbn; [reflexivity | exact IH]. Qed.

(** A UUID-shaped text has its first dash at offset 8. *)
Lemma uuid_dash_at_8 (u b : string) :
  uuid_shaped u -> get 8 (u ++ b) = Some dash.
Proof.
  intros (g1 & g2 & g3 & g4 & g5 & -> & [L1 _] & _).
  rewrite append_assoc. cbn [append]. rewrite <- L1. apply get_after.
Qed.

Lemma re_search_hit (pat : list char_class) (s m : string) :
  match_here pat s = Some m -> re_search pat s = Some m.
Proof. intros H. destruct s; cbn [re_search]; now rewrite H. Qed.

(** X3: Behind a text without a dash, the first UUID-shaped text of the message
    is the one that is returned, whatever follows it. *)
Theorem extract_todo_id_round_trip (a u b : string) :
  uuid_shaped u ->
  lacks dash a = true ->
  _extract_todo_id (a ++ u ++ b) = Some u.
Proof.
  intros Hu Ha. unfold _extract_todo_id.
  induction a as [|c a IH].
  - cbn [append]. apply re_search_hit, match_uuid.
    split; [now exists b | exact Hu].
  - cbn in Ha. apply andb_true_iff in Ha. destruct Ha as [Hc Ha].
    cbn [append re_search].
    destruct (match_here uuid_pattern (String c (a ++ u ++ b))) as [u1|] eqn:Hm;
      [|now apply IH].
    exfalso. apply match_uuid in Hm. destruct Hm as [[b1 Hs] Hu1].
    pose proof (uuid_dash_at_8 u1 b1 Hu1) as Hdash. rewrite <- Hs in Hdash.
    destruct Hu as (g1 & g2 & g3 & g4 & g5 & -> & [L1 H1] & _).
    revert Hdash.
    change (String c (a ++ (g1 ++ String dash
              (g2 ++ String dash (g3 ++ String dash (g4 ++ String dash g5))))
              ++ b))
      with (String c a ++ (g1 ++ String dash
              (g2 ++ String dash (g3 ++ String dash (g4 ++ String dash g5))))
              ++ b).
    rewrite (append_assoc g1), <- (append_assoc (String c a) g1).
    rewrite <- append_correct1
      by (rewrite length_app, L1; cbn [String.length]; lia).
    apply lacks_get. rewrite lacks_app. cbn [lacks].
    now rewrite Hc, Ha, (all_hex_lacks_dash g1 H1).
Qed.

Lemma extract_todo_id_round_trip_witness :
  _extract_todo_id
    ("complete todo " ++ "123e4567-e89b-12d3-a456-426614174000" ++ " please")
  = Some "123e4567-e89b-12d3-a456-426614174000".
Proof.
  apply (extract_todo_id_round_trip "complete todo "
           "123e4567-e89b-12d3-a456-426614174000" " please");
    [|reflexivity].
  exists "123e4567", "e89b", "12d3", "a456", "426614174000".
  repeat split.
Defined.

(** ** More on the router: outbound calls, edge cases, sessions *)

Lemma process_with_ai_client (env : Env) (self : TodoAgent) (u m : string)
    (c : OpenAI) :
  offline_mode self = false ->
  client self = Some c ->
  _process_with_ai env self u m
  = (match chat_create env c (chat_request_for u m) with
     | ChatResponse (content :: _) => Ret content
     | _ => Ret (Some (_handle_offline_fallback m))
     end,
     [ChatCompletion c (chat_request_for u m)]).
Proof.
  intros Hon Hc. unfold _process_with_ai. rewrite Hon, Hc.
  fold (chat_request_for u m).
  now destruct (chat_create env c (chat_request_for u m)) as [[|content rest]|e].
Qed.

(** X4: One call of [process_message] makes at most one outbound call.  It makes
    one exactly when the agent is online with a client and the message is
    not a todo command, and that call is the chat completion whose user turn
    carries the user id and the message as it was typed. *)
Theorem process_message_calls (env : Env) (self : TodoAgent) (u m : string) :
  (calls_of (process_message env self u m) = []
   /\ (offline_mode self = true \/ client self = None
       \/ _is_todo_command (normalize m) = true))
  \/ (exists c,
         client self = Some c /\ offline_mode self = false
         /\ _is_todo_command (normalize m) = false
         /\ calls_of (process_message env self u m)
            = [ChatCompletion c (chat_request_for u m)]
         /\ In ("user", "User ID: " ++ u ++ nl ++ "Message: " ++ m)
               (cr_messages (chat_request_for u m))).
Proof.
  destruct (_is_todo_command (normalize m)) eqn:Htodo.
  { left. rewrite process_message_todo by assumption. cbn. auto. }
  destruct (offline_mode self) eqn:Hmode.
  { left. rewrite process_message_offline by assumption. cbn. auto. }
  rewrite process_message_online by assumption. unfold calls_of. cbn [fst].
  destruct (client self) as [c|] eqn:Hc.
  - right. exists c. rewrite (process_with_ai_client env _ u m c) by assumption.
    repeat split. cbn. auto.
  - left. unfold _process_with_ai. cbn [offline_mode set_current_user_id client].
    rewrite Hmode, Hc. cbn. auto.
Qed.

(** X5: Online, for a message that is not a todo command, the content of the
    first choice of the backend's answer is returned as it is; further
    choices are not looked at. *)
Theorem process_message_forwards_first_choice
    (env : Env) (self : TodoAgent) (u m : string) (c : OpenAI)
    (content : option string) (rest : list (option string)) :
  offline_mode self = false ->
  client self = Some c ->
  _is_todo_command (normalize m) = false ->
  chat_create env c (chat_request_for u m) = ChatResponse (content :: rest) ->
  value_of (process_message env self u m) = Ret content.
Proof.
  intros Hon Hc Htodo Hreply.
  rewrite process_message_online by assumption. unfold value_of. cbn [fst].
  rewrite (process_with_ai_client env _ u m c) by assumption.
  now rewrite Hreply.
Qed.

Lemma process_message_forwards_first_choice_witness :
  value_of (process_message (env_answering (Some "Bonjour!"))
              (__init__ (Some "sk-test")) "u1" "Hello There")
  = Ret (Some "Bonjour!").
Proof.
  apply (process_message_forwards_first_choice
           (env_answering (Some "Bonjour!")) (__init__ (Some "sk-test"))
           "u1" "Hello There"
           {| client_api_key := "sk-test";
              client_base_url := "https://openrouter.ai/api/v1" |}
           (Some "Bonjour!") []); reflexivity.
Defined.

(** X6: Online, an answer without any choice, like a raised exception or a
    missing client, ends in the generic offline sentence instead of an
    error. *)
Theorem process_message_no_choice
    (env : Env) (self : TodoAgent) (u m : string) :
  offline_mode self = false ->
  _is_todo_command (normalize m) = false ->
  (client self = None
   \/ exists c, client self = Some c
                /\ (chat_create env c (chat_request_for u m) = ChatResponse []
                    \/ exists e, chat_create env c (chat_request_for u m)
                                 = ChatRaises e)) ->
  value_of (process_message env self u m) = Ret (Some fallback_generic).
Proof.
  intros Hon Htodo Hcase.
  rewrite process_message_online by assumption. unfold value_of. cbn [fst].
  rewrite <- (offline_fallback_generic m Htodo).
  destruct Hcase as [Hc | (c & Hc & [Hreply | [e Hreply]])].
  - unfold _process_with_ai. cbn [offline_mode set_current_user_id client].
    now rewrite Hon, Hc.
  - rewrite (process_with_ai_client env _ u m c) by assumption.
    now rewrite Hreply.
  - rewrite (process_with_ai_client env _ u m c) by assumption.
    now rewrite Hreply.
Qed.

Lemma process_message_no_choice_witness :
  value_of (process_message
              {| chat_create := fun _ _ => ChatResponse [];
                 http_post := fun _ => PostRaises OtherException;
                 rand := 0 |}
              (__init__ (Some "sk-test")) "u1" "Hello There")
  = Ret (Some fallback_generic).
Proof.
  apply process_message_no_choice; try reflexivity.
  right. eexists. split; [reflexivity|]. left. reflexivity.
Defined.

(** *** The agent across a sequence of calls *)

Lemma init_well_formed (getenv : option string) : well_formed (__init__ getenv).
Proof.
  unfold well_formed, __init__. cbn.
  destruct getenv as [[|c k]|]; cbn; repeat split;
    try discriminate; try reflexivity;
    try match goal with
        | H : Some _ = Some _ |- _ => injection H as <-; reflexivity
        end.
Qed.

Lemma set_current_user_id_well_formed (self : TodoAgent) (u : string) :
  well_formed self -> well_formed (set_current_user_id self u).
Proof. unfold well_formed. cbn. auto. Qed.

Lemma session_agent (self : TodoAgent) (inputs : list (Env * string * string)) :
  snd (fst (session self inputs))
  = fold_left (fun a i => set_current_user_id a (snd (fst i))) inputs self.
Proof.
  revert self. induction inputs as [|[[env u] m] rest IH]; intros self.
  - reflexivity.
  - cbn [session fold_left fst snd].
    pose proof (agent_of_process_message env self u m) as Ha.
    unfold agent_of in Ha.
    destruct (process_message env self u m) as [[r calls] self1].
    cbn [snd] in Ha. subst self1.
    specialize (IH (set_current_user_id self u)).
    destruct (session (set_current_user_id self u) rest) as [[rs self2] calls'].
    exact IH.
Qed.

(** X7: An agent built by [__init__] is offline exactly when the key is missing
    or empty and has a client exactly when it is online; every sequence of
    calls keeps this, together with the keys, the model and the base URL. *)
Theorem session_keeps_well_formed
    (getenv : option string) (inputs : list (Env * string * string)) :
  let self := snd (fst (session (__init__ getenv) inputs)) in
  well_formed self
  /\ (offline_mode self = true <-> getenv = None \/ getenv = Some EmptyString)
  /\ (offline_mode self = false -> exists c, client self = Some c).
Proof.
  cbv zeta. rewrite session_agent.
  assert (forall a,
             well_formed a
             /\ openrouter_api_key a = getenv ->
             well_formed
               (fold_left (fun a i => set_current_user_id a (snd (fst i)))
                          inputs a)
             /\ openrouter_api_key
                  (fold_left (fun a i => set_current_user_id a (snd (fst i)))
                             inputs a) = getenv) as Hfold.
  { induction inputs as [|i rest IH]; intros a [Hwf Hkey]; [auto|].
    cbn [fold_left]. apply IH. split; [|exact Hkey].
    now apply set_current_user_id_well_formed. }
  destruct (Hfold (__init__ getenv) (conj (init_well_formed getenv) eq_refl))
    as [Hwf Hkey].
  split; [exact Hwf|].
  destruct Hwf as (Hmode & _ & _ & _ & Hclient & _).
  rewrite Hkey in Hmode. split.
  - rewrite Hmode. destruct getenv as [[|c k]|]; cbn; split; auto;
      try discriminate; intros [H|H]; discriminate.
  - intros Hon. destruct (client _) as [c|]; [eauto|].
    destruct Hclient as [_ Hnone]. rewrite (Hnone eq_refl) in Hon. discriminate.
Qed.

(** X8: After a sequence of calls [current_user_id] holds the user of the last
    call, whoever the earlier callers were. *)
Theorem session_current_user_is_last
    (self : TodoAgent) (inputs : list (Env * string * string)) :
  current_user_id (snd (fst (session self inputs)))
  = last_user inputs (current_user_id self).
Proof.
  rewrite session_agent. unfold last_user. revert self.
  induction inputs as [|[[env u] m] rest IH]; intros self; [reflexivity|].
  cbn [fold_left fst snd rev]. rewrite IH.
  cbn [current_user_id set_current_user_id].
  destruct (rev rest) as [|[[env' u'] m'] l]; reflexivity.
Qed.

Lemma process_message_ignores_current_user
    (env : Env) (self : TodoAgent) (x u m : string) :
  fst (process_message env (set_current_user_id self x) u m)
  = fst (process_message env self u m).
Proof. reflexivity. Qed.

(** X9: The answers and outbound calls of a sequence of calls are those of the
    same calls made one by one on the initial agent: no call sees what an
    earlier call left behind. *)
Theorem session_is_history_free
    (self : TodoAgent) (inputs : list (Env * string * string)) :
  fst (fst (session self inputs))
  = map (fun i => value_of (process_message (fst (fst i)) self
                                            (snd (fst i)) (snd i))) inputs
  /\ snd (session self inputs)
     = concat (map (fun i => calls_of (process_message (fst (fst i)) self
                                                       (snd (fst i)) (snd i)))
                   inputs).
Proof.
  revert self. induction inputs as [|[[env u] m] rest IH]; intros self.
  - split; reflexivity.
  - cbn [session map concat fst snd].
    pose proof (agent_of_process_message env self u m) as Ha.
    unfold agent_of, value_of, calls_of in *.
    destruct (process_message env self u m) as [[r calls] self1] eqn:Hpm.
    cbn [fst snd] in *. subst self1.
    destruct (IH (set_current_user_id self u)) as [IHv IHc].
    destruct (session (set_current_user_id self u) rest) as [[rs self2] calls'].
    cbn [fst snd] in *. subst rs calls'. split; reflexivity.
Qed.

(** ** Case and padding *)

Lemma isspace_lower_char_eq (c : ascii) : isspace (lower_char c) = isspace c.
Proof. destruct c as [[] [] [] [] [] [] [] []]; reflexivity. Qed.

Lemma lower_lstrip (s : string) : lower (lstrip s) = lstrip (lower s).
Proof.
  induction s as [|c s IH]; cbn [lstrip lower]; [reflexivity|].
  rewrite isspace_lower_char_eq. now destruct (isspace c).
Qed.

Lemma lower_rstrip (s : string) : lower (rstrip s) = rstrip (lower s).
Proof.
  induction s as [|c s IH]; cbn [rstrip lower]; [reflexivity|].
  rewrite <- IH, isspace_lower_char_eq.
  destruct (rstrip s); cbn [lower]; [now destruct (isspace c) | reflexivity].
Qed.

Lemma rstrip_idem (s : string) : rstrip (rstrip s) = rstrip s.
Proof.
  induction s as [|c s IH]; cbn [rstrip]; [reflexivity|].
  destruct (rstrip s) as [|d r] eqn:Hr.
  - destruct (isspace c) eqn:Hc; cbn [rstrip]; [reflexivity | now rewrite Hc].
  - cbn [rstrip] in *. now rewrite IH.
Qed.

Lemma lstrip_head_ok (s : string) : head_ok (lstrip s) = true.
Proof.
  induction s as [|c s IH]; cbn [lstrip]; [reflexivity|].
  destruct (isspace c) eqn:Hc; [exact IH | cbn; now rewrite Hc].
Qed.

Lemma head_ok_lstrip (s : string) : head_ok s = true -> lstrip s = s.
Proof.
  destruct s as [|c s]; cbn; [reflexivity|].
  now destruct (isspace c).
Qed.

Lemma head_ok_rstrip (s : string) : head_ok s = true -> head_ok (rstrip s) = true.
Proof.
  destruct s as [|c s]; cbn [head_ok rstrip]; [reflexivity|].
  intros Hc. destruct (rstrip s); [|exact Hc].
  destruct (isspace c) eqn:E; [discriminate Hc | cbn; now rewrite E].
Qed.

Lemma strip_idem (s : string) : strip (strip s) = strip s.
Proof.
  unfold strip.
  rewrite (head_ok_lstrip (rstrip (lstrip s)))
    by (apply head_ok_rstrip, lstrip_head_ok).
  apply rstrip_idem.
Qed.

Lemma normalize_idem (m : string) : normalize (normalize m) = normalize m.
Proof.
  unfold normalize, strip.
  rewrite lower_rstrip, lower_lstrip, lower_idem.
  apply (strip_idem (lower m)).
Qed.

(** X10: Offline, the answer depends on the message only through its lower-cased,
    trimmed text, and not on the user: two messages that differ in case or
    in surrounding blanks get the same answer, and normalising a message
    twice changes nothing. *)
Theorem offline_answer_by_normal_form
    (env : Env) (self : TodoAgent) (u u' m m' : string) :
  offline_mode self = true ->
  normalize m = normalize m' ->
  value_of (process_message env self u m)
  = value_of (process_message env self u' m')
  /\ normalize (normalize m) = normalize m
  /\ value_of (process_message env self u (normalize m))
     = value_of (process_message env self u m).
Proof.
  assert (forall a b x y, normalize x = normalize y ->
            offline_mode self = true ->
            value_of (process_message env self a x)
            = value_of (process_message env self b y)) as Hsame.
  { intros a b x y Hxy Hoff.
    destruct (_is_todo_command (normalize x)) eqn:Htodo.
    - rewrite (process_message_todo env self a x Htodo).
      rewrite Hxy in Htodo.
      rewrite (process_message_todo env self b y Htodo).
      unfold value_of, _handle_todo_command. cbn [fst]. now rewrite Hxy.
    - rewrite (process_message_offline env self a x Htodo Hoff).
      rewrite Hxy in Htodo.
      rewrite (process_message_offline env self b y Htodo Hoff).
      unfold value_of, _handle_general_conversation. cbn [fst].
      fold (normalize x). fold (normalize y). now rewrite Hxy. }
  intros Hoff Hmm. split; [now apply Hsame|].
  split; [apply normalize_idem|].
  apply Hsame; [apply normalize_idem | exact Hoff].
Qed.

Lemma offline_answer_by_normal_form_witness :
  value_of (process_message (env_raising OtherException) (__init__ None)
              "u1" "  SHOW me MY Todos ")
  = value_of (process_message (env_raising OtherException) (__init__ None)
                "u2" "show me my todos").
Proof.
  apply (offline_answer_by_normal_form (env_raising OtherException)
           (__init__ None) "u1" "u2" "  SHOW me MY Todos " "show me my todos");
    reflexivity.
Defined.

(** ** More on the handlers *)

(** X11: Only a text that names [todo] or [task] gets one of the four specific
    acknowledgements: a command verb alone is answered with the hint. *)
Theorem handle_todo_needs_noun (u t : string) :
  ~ occurs "todo" t -> ~ occurs "task" t ->
  _handle_todo_command u t = manage_hint.
Proof.
  intros Htodo Htask.
  assert (forall ws, incl ws ["todo"; "task"; "todos"; "tasks"] ->
                     any_in ws t = false) as Hnone.
  { intros ws Hws. destruct (any_in ws t) eqn:E; [|reflexivity].
    exfalso. apply any_in_occurs in E. destruct E as (k & Hk & a & b & ->).
    apply Hws in Hk. cbn [In] in Hk.
    destruct Hk as [<-|[<-|[<-|[<-|[]]]]].
    - apply Htodo. now exists a, b.
    - apply Htask. now exists a, b.
    - apply Htodo. exists a, ("s" ++ b). reflexivity.
    - apply Htask. exists a, ("s" ++ b). reflexivity. }
  assert (any_in ["todo"; "task"] t = false) as H1
      by (apply Hnone; intros k Hk; cbn [In] in *; tauto).
  assert (any_in ["todo"; "task"; "todos"; "tasks"] t = false) as H2
      by (apply Hnone; intros k Hk; exact Hk).
  unfold _handle_todo_command. now rewrite H1, H2, !andb_false_r.
Qed.

Lemma handle_todo_needs_noun_witness :
  _handle_todo_command "u1" "add milk and remove eggs" = manage_hint.
Proof.
  apply (handle_todo_needs_noun "u1" "add milk and remove eggs");
    intros H; apply contains_occurs in H; discriminate H.
Defined.

(** ** More on [_call_openrouter_api] *)

(** X12: With a 2xx status and a body that decodes, the client returns the body
    as it is; with a 2xx status and a body that does not decode, it returns
    an apology.  Either way, and also on an agent without a key, it has
    sent exactly one POST to the chat-completions URL; without a key the
    authorization header reads [Bearer None]. *)
Theorem call_openrouter_success
    (env : Env) (self : TodoAgent) (messages : json) (tools : list json)
    (status : N) (body : outcome json) :
  http_post env (openrouter_request self messages tools) = Replied status body ->
  ((200 <=? status) && (status <? 300))%N = true ->
  (forall j, body = Ret j ->
             fst (_call_openrouter_api env self messages tools) = Ret j)
  /\ (forall e, body = Raise e ->
                exists s, fst (_call_openrouter_api env self messages tools)
                          = Ret (mock_response s)
                          /\ s <> EmptyString)
  /\ snd (_call_openrouter_api env self messages tools)
     = [HttpPost (openrouter_request self messages tools)]
  /\ url (openrouter_request self messages tools)
     = base_url self ++ "/chat/completions"
  /\ (api_key self = None ->
      In ("Authorization", "Bearer None")
         (headers (openrouter_request self messages tools))).
Proof.
  intros Hpost Hok.
  unfold _call_openrouter_api, raise_for_status. rewrite Hpost, Hok.
  cbn [bind try_except fst snd].
  split; [now intros j ->|]. split.
  { intros e ->. cbn [try_except].
    destruct e; cbn; eexists; (split; [reflexivity|]);
      try discriminate; try apply http_error_content_mentions. }
  split; [reflexivity|]. split; [reflexivity|].
  intros Hkey. unfold openrouter_request. cbn [headers bearer].
  rewrite Hkey. left. reflexivity.
Qed.

Lemma call_openrouter_success_witness :
  fst (_call_openrouter_api (env_answering None) (__init__ None) (JList []) [])
  = Ret (mock_response "ok").
Proof.
  apply (call_openrouter_success (env_answering None) (__init__ None)
           (JList []) [] 200 (Ret (mock_response "ok")));
    reflexivity.
Defined.

(** ** More on [_extract_todo_title] *)

Lemma index0_prefix (k s : string) : prefix k s = true -> index 0 k s = Some 0.
Proof.
  intros H. destruct s as [|c s]; cbn [index].
  - destruct k; [reflexivity | discriminate H].
  - now rewrite H.
Qed.

Lemma index_first (k a b : string) :
  first_at k a b -> index 0 k (a ++ k ++ b) = Some (String.length a).
Proof.
  unfold first_at. induction a as [|c a IH]; intros Hfirst.
  - cbn [append String.length]. apply index0_prefix, prefix_begins. now exists b.
  - cbn [append index String.length].
    destruct (prefix k (String c (a ++ k ++ b))) eqn:Hp.
    + apply prefix_begins in Hp. destruct Hp as [b1 Hb1].
      specialize (Hfirst EmptyString b1 Hb1). cbn in Hfirst. lia.
    + rewrite IH; [reflexivity|].
      intros a1 b1 Hs. specialize (Hfirst (String c a1) b1).
      cbn in Hfirst. rewrite Hs in Hfirst. specialize (Hfirst eq_refl). lia.
Qed.

Lemma index_leftmost (k s a1 b1 : string) (n : nat) :
  index 0 k s = Some n -> s = a1 ++ k ++ b1 -> n <= String.length a1.
Proof.
  revert s n. induction a1 as [|c a1 IH]; intros s n Hi ->.
  - cbn [append] in Hi. rewrite index0_prefix in Hi
      by (apply prefix_begins; now exists b1).
    injection Hi as <-. apply Nat.le_0_l.
  - cbn [append index String.length] in *.
    destruct (prefix k (String c (a1 ++ k ++ b1))).
    + injection Hi as <-. apply Nat.le_0_l.
    + destruct (index 0 k (a1 ++ k ++ b1)) as [n'|] eqn:Hn; [|discriminate].
      injection Hi as <-. apply le_n_S. now apply (IH _ n' Hn).
Qed.

(** A position computed by the search is a first occurrence. *)
Lemma first_at_of_index (k a b : string) :
  index 0 k (a ++ k ++ b) = Some (String.length a) -> first_at k a b.
Proof.
  intros Hi a1 b1 Hs. now apply (index_leftmost k _ a1 b1 _ Hi).
Qed.

Lemma substring_all (s : string) : substring 0 (String.length s) s = s.
Proof. induction s as [|c s IH]; cbn; [reflexivity | now rewrite IH]. Qed.

Lemma substring_skip (x y : string) :
  substring (String.length x) (String.length y) (x ++ y) = y.
Proof.
  induction x as [|c x IH]; cbn [String.length append substring];
    [apply substring_all | exact IH].
Qed.

Lemma substring_after (k a b : string) :
  substring (String.length a + String.length k)
            (String.length (a ++ k ++ b) - (String.length a + String.length k))
            (a ++ k ++ b)
  = b.
Proof.
  rewrite !length_app.
  replace (String.length a + (String.length k + String.length b)
           - (String.length a + String.length k))
    with (String.length b) by lia.
  rewrite <- length_app, <- append_assoc. apply substring_skip.
Qed.

(** X13: When the message holds [todo to], the title is what follows its first
    occurrence, trimmed; the text before it plays no part. *)
Theorem extract_title_after_todo_to (a b : string) :
  first_at "todo to" a b ->
  _extract_todo_title (a ++ "todo to" ++ b) = Some (strip b).
Proof.
  intros Hfirst.
  rewrite (extract_title_first_pattern _ _ (index_first _ _ _ Hfirst)).
  pose proof (substring_after "todo to" a b) as Hs.
  change (String.length "todo to") with 7 in Hs. now rewrite Hs.
Qed.

Lemma extract_title_after_todo_to_witness :
  _extract_todo_title ("Please create a " ++ "todo to" ++ "  Call Mom  ")
  = Some (strip "  Call Mom  ").
Proof.
  apply (extract_title_after_todo_to "Please create a " "  Call Mom  ").
  apply first_at_of_index. reflexivity.
Defined.

(** X14: When the lower-cased message does not hold [todo to] and the message
    holds [todo:], the title is what follows the first [todo:], trimmed. *)
Theorem extract_title_after_todo_colon (a b : string) :
  contains "todo to" (lower (a ++ "todo:" ++ b)) = false ->
  first_at "todo:" a b ->
  _extract_todo_title (a ++ "todo:" ++ b) = Some (strip b).
Proof.
  intros Hno Hfirst.
  pose proof (index_first _ _ _ Hfirst) as Hi.
  assert (contains "todo:" (a ++ "todo:" ++ b) = true) as Hc
      by (now rewrite contains_index, Hi).
  unfold _extract_todo_title, split1. rewrite Hno, Hc, Hi.
  cbn [List.length Nat.ltb Nat.leb nth].
  pose proof (substring_after "todo:" a b) as Hs. now rewrite Hs.
Qed.

Lemma extract_title_after_todo_colon_witness :
  _extract_todo_title ("New " ++ "todo:" ++ " Water the plants")
  = Some (strip " Water the plants").
Proof.
  apply (extract_title_after_todo_colon "New " " Water the plants").
  - reflexivity.
  - apply first_at_of_index. reflexivity.
Defined.

(** X15: Whatever branch produces it, a title is returned trimmed. *)
Theorem extract_title_is_trimmed (message t : string) :
  _extract_todo_title message = Some t -> strip t = t.
Proof.
  unfold _extract_todo_title.
  repeat match goal with
         | |- context [if ?b then _ else _] => destruct b
         end;
    intros [= <-]; apply strip_idem.
Qed.

Lemma extract_title_is_trimmed_witness :
  strip "milk" = "milk".
Proof.
  apply (extract_title_is_trimmed "add milk to my list" "milk").
  reflexivity.
Defined.

(** *** The stop-word fallback *)

Lemma lacks_occurs (c : ascii) (s : string) :
  lacks c s = true -> ~ occurs (String c EmptyString) s.
Proof.
  intros H (a & b & ->). rewrite lacks_app in H. cbn in H.
  rewrite Ascii.eqb_refl in H. cbn in H. now rewrite andb_false_r in H.
Qed.

Lemma replace_char_lacks (c : ascii) (new s : string) :
  lacks c new = true ->
  lacks c (replace s (String c EmptyString) new) = true.
Proof.
  intros Hnew. cbn [replace]. induction s as [|d s IH]; [reflexivity|].
  cbn [replace_from String.length Nat.sub prefix].
  destruct (ascii_dec c d) as [->|Hcd].
  - replace (prefix EmptyString s) with true by (now destruct s).
    now rewrite lacks_app, Hnew, IH.
  - cbn [lacks]. rewrite IH, andb_true_r.
    destruct (Ascii.eqb_spec d c) as [->|]; [contradiction | reflexivity].
Qed.

Lemma replace_from_keeps_lacks (c : ascii) (old new s : string) (k : nat) :
  lacks c new = true -> lacks c s = true ->
  lacks c (replace_from old new k s) = true.
Proof.
  intros Hnew. revert k. induction s as [|d s IH]; intros k Hs; [reflexivity|].
  cbn in Hs. apply andb_true_iff in Hs. destruct Hs as [Hd Hs].
  cbn [replace_from]. destruct k as [|k]; [|now apply IH].
  destruct (prefix old (String d s)).
  - now rewrite lacks_app, Hnew, IH.
  - cbn [lacks]. now rewrite Hd, IH.
Qed.

Lemma replace_keeps_lacks (c : ascii) (old new s : string) :
  old <> EmptyString -> lacks c new = true -> lacks c s = true ->
  lacks c (replace s old new) = true.
Proof.
  intros Hold Hnew Hs. destruct old; [contradiction|].
  now apply replace_from_keeps_lacks.
Qed.

Lemma lstrip_keeps_lacks (c : ascii) (s : string) :
  lacks c s = true -> lacks c (lstrip s) = true.
Proof.
  induction s as [|d s IH]; cbn [lstrip]; [reflexivity|].
  intros H. destruct (isspace d); [|exact H].
  cbn in H. apply andb_true_iff in H. now apply IH.
Qed.

Lemma rstrip_keeps_lacks (c : ascii) (s : string) :
  lacks c s = true -> lacks c (rstrip s) = true.
Proof.
  induction s as [|d s IH]; cbn [rstrip]; [reflexivity|].
  intros H. cbn in H. apply andb_true_iff in H. destruct H as [Hd Hs].
  specialize (IH Hs). destruct (rstrip s).
  - destruct (isspace d); cbn; [reflexivity | now rewrite Hd].
  - cbn [lacks] in *. now rewrite Hd, IH.
Qed.

(** X16: When none of the three patterns is in the message, the title is the
    message with the stop words blanked out wherever they occur, inside
    words too: no letter [a] is left in it, and it is never empty. *)
Theorem extract_title_fallback_blanks_letters (message t : string) :
  contains "todo to" message = false ->
  contains "todo:" message = false ->
  contains "add" (lower message) = false ->
  _extract_todo_title message = Some t ->
  ~ occurs "a" t /\ t <> EmptyString.
Proof.
  intros Hto Hcolon Hadd.
  unfold _extract_todo_title, split1.
  rewrite Hcolon, Hadd. rewrite contains_index in Hto.
  destruct (index 0 "todo to" message); [discriminate Hto|].
  cbn [List.length Nat.ltb Nat.leb andb].
  assert (forall r : option string,
             (if contains "todo to" (lower message) then r else r) = r) as Hif
      by (intros r; now destruct (contains "todo to" (lower message))).
  rewrite Hif. cbn [fold_left words_to_remove].
  set (cleaned := replace _ "the" " ").
  assert (lacks "a" cleaned = true) as Hclean.
  { subst cleaned.
    do 2 (apply replace_keeps_lacks; [discriminate | reflexivity |]).
    now apply replace_char_lacks. }
  destruct (strip cleaned) as [|c r] eqn:Hstrip; cbn [truthy]; [discriminate|].
  intros [= <-]. split; [|discriminate].
  apply lacks_occurs. rewrite <- Hstrip. unfold strip.
  now apply rstrip_keeps_lacks, lstrip_keeps_lacks.
Qed.

Lemma extract_title_fallback_blanks_letters_witness :
  ~ occurs "a" "Buy b n n s" /\ "Buy b n n s" <> EmptyString.
Proof.
  apply (extract_title_fallback_blanks_letters "Buy bananas" "Buy b n n s");
    reflexivity.
Defined.

(** *** The text between [add] and [to] *)

Lemma index_skip (k a s : string) :
  index (String.length a) k (a ++ s)
  = option_map (Nat.add (String.length a)) (index 0 k s).
Proof.
  induction a as [|c a IH]; cbn [String.length append].
  - now destruct (index 0 k s).
  - cbn [index]. rewrite IH. now destruct (index 0 k s).
Qed.

Lemma substring_mid (p q r : string) :
  substring (String.length p) (String.length q) (p ++ q ++ r) = q.
Proof.
  induction p as [|c p IH]; cbn [String.length append substring]; [|exact IH].
  induction q as [|d q IHq]; cbn [String.length append substring].
  - now destruct r.
  - now rewrite IHq.
Qed.

Lemma slice_nat (s : string) (i j : nat) :
  i <= j -> j <= String.length s ->
  slice s (Z.of_nat i) (Z.of_nat j) = substring i (j - i) s.
Proof.
  intros Hij Hj. unfold slice.
  replace (Z.of_nat i <? 0)%Z with false by (symmetry; apply Z.ltb_ge; lia).
  replace (Z.of_nat j <? 0)%Z with false by (symmetry; apply Z.ltb_ge; lia).
  rewrite !Z.min_l by lia.
  rewrite <- Nat2Z.inj_sub by exact Hij. now rewrite !Nat2Z.id.
Qed.

(** X17: Provided lower-casing changes the length of neither the text
    before the first [add] nor the text between it and the [to] that follows
    (so that positions in the lower-cased message are positions in the
    message), when the first two patterns are out and the lower-cased message
    holds [add] and, at or after it, [to], the title is the text of the
    message between the first [add] and the first [to] that follows, in the
    case in which it was typed and trimmed. *)
Theorem extract_title_between_add_and_to (a x mid y b : string) :
  String.length (lower a) = String.length a ->
  String.length (lower mid) = String.length mid ->
  lower x = "add" -> lower y = "to" ->
  String.length x = 3 -> String.length y = 2 ->
  contains "todo to" (lower (a ++ x ++ mid ++ y ++ b)) = false ->
  contains "todo:" (a ++ x ++ mid ++ y ++ b) = false ->
  first_at "add" (lower a) (lower (mid ++ y ++ b)) ->
  first_at "to" ("add" ++ lower mid) (lower b) ->
  _extract_todo_title (a ++ x ++ mid ++ y ++ b) = Some (strip mid).
Proof.
  intros La Lmid Hx Hy Lx Ly Hno1 Hno2 Hadd Hto.
  set (message := a ++ x ++ mid ++ y ++ b) in *.
  assert (lower message
          = lower a ++ "add" ++ lower mid ++ "to" ++ lower b) as Hlow
      by (subst message; now rewrite !lower_app, Hx, Hy).
  assert (index 0 "add" (lower message) = Some (String.length a)) as Hi1.
  { rewrite Hlow, <- La.
    apply (index_first "add" (lower a) (lower mid ++ "to" ++ lower b)).
    now rewrite !lower_app, Hy in Hadd. }
  assert (index (String.length a) "to" (lower message)
          = Some (String.length a + (3 + String.length mid))) as Hi2.
  { rewrite Hlow, <- La, index_skip.
    replace ("add" ++ lower mid ++ "to" ++ lower b)
      with (("add" ++ lower mid) ++ "to" ++ lower b)
      by (now rewrite append_assoc).
    rewrite (index_first "to" ("add" ++ lower mid) (lower b) Hto).
    cbn [option_map]. rewrite length_app, Lmid. reflexivity. }
  assert (contains "add" (lower message) = true) as Hc1
      by (now rewrite contains_index, Hi1).
  assert (contains "to" (lower message) = true) as Hc2.
  { apply contains_occurs. rewrite Hlow.
    exists (lower a ++ "add" ++ lower mid), (lower b).
    now rewrite !append_assoc. }
  unfold _extract_todo_title. fold message.
  rewrite Hno1, Hno2, Hc1, Hc2. cbn [andb].
  unfold find. cbn [Z.ltb Z.compare Z.to_nat]. rewrite Hi1.
  replace (Z.of_nat (String.length a) <? 0)%Z with false
    by (symmetry; apply Z.ltb_ge; lia).
  rewrite Nat2Z.id, Hi2.
  replace (Z.of_nat (String.length a) =? -1)%Z with false
    by (symmetry; apply Z.eqb_neq; lia).
  replace (Z.of_nat (String.length a + (3 + String.length mid)) =? -1)%Z
    with false by (symmetry; apply Z.eqb_neq; lia).
  cbn [negb andb].
  replace (Z.of_nat (String.length a) + 3)%Z
    with (Z.of_nat (String.length a + 3)) by lia.
  rewrite slice_nat;
    [| lia
     | subst message; rewrite !length_app, Lx, Ly; lia].
  replace (String.length a + (3 + String.length mid) - (String.length a + 3))
    with (String.length mid) by lia.
  replace (String.length a + 3) with (String.length (a ++ x))
    by (rewrite length_app, Lx; reflexivity).
  subst message.
  replace (a ++ x ++ mid ++ y ++ b) with ((a ++ x) ++ mid ++ y ++ b)
    by (now rewrite append_assoc).
  now rewrite substring_mid.
Qed.

Lemma extract_title_between_add_and_to_witness :
  _extract_todo_title ("Please " ++ "Add" ++ " Oat Milk " ++ "To" ++ " my list")
  = Some (strip " Oat Milk ").
Proof.
  apply (extract_title_between_add_and_to
           "Please " "Add" " Oat Milk " "To" " my list");
    try reflexivity; apply first_at_of_index; reflexivity.
Defined.

(** ** Commands inside longer messages *)

Lemma lstrip_suffix (s : string) : exists a, s = a ++ lstrip s.
Proof.
  induction s as [|c s [a IH]]; cbn [lstrip].
  - now exists EmptyString.
  - destruct (isspace c).
    + exists (String c a). cbn. now rewrite <- IH.
    + now exists EmptyString.
Qed.

Lemma rstrip_prefix (s : string) : exists b, s = rstrip s ++ b.
Proof.
  induction s as [|c s [b IH]]; cbn [rstrip].
  - now exists EmptyString.
  - destruct (rstrip s) as [|d r] eqn:Hr.
    + destruct (isspace c).
      * now exists (String c s).
      * exists s. reflexivity.
    + exists b. cbn. cbn in IH. now rewrite <- IH.
Qed.

Lemma occurs_of_strip (k s : string) : occurs k (strip s) -> occurs k s.
Proof.
  unfold strip. intros (a & b & Hk).
  destruct (lstrip_suffix s) as [a0 Ha0].
  destruct (rstrip_prefix (lstrip s)) as [b0 Hb0].
  exists (a0 ++ a), (b ++ b0).
  rewrite Ha0 at 1. rewrite Hb0, Hk. now rewrite !append_assoc.
Qed.

Lemma occurs_lstrip (k s : string) :
  head_ok k = true -> k <> EmptyString -> occurs k s -> occurs k (lstrip s).
Proof.
  intros Hk Hne. induction s as [|c s IH]; cbn [lstrip]; [auto|].
  destruct (isspace c) eqn:Hc; [|auto].
  intros (a & b & Hs). apply IH. destruct a as [|d a].
  - destruct k as [|d k]; [contradiction|].
    cbn in Hs, Hk. injection Hs as -> _. rewrite Hc in Hk. discriminate.
  - cbn in Hs. injection Hs as _ ->. now exists a, b.
Qed.

Lemma rstrip_keeps_word (k b : string) :
  lacks_space k = true -> k <> EmptyString ->
  exists b', rstrip (k ++ b) = k ++ b'.
Proof.
  intros Hk Hne. induction k as [|d k IH]; [contradiction|].
  cbn in Hk. apply andb_true_iff in Hk. destruct Hk as [Hd Hk].
  apply negb_true_iff in Hd. cbn [append rstrip].
  destruct k as [|e k].
  - cbn [append]. destruct (rstrip b) as [|x r].
    + rewrite Hd. now exists EmptyString.
    + now exists (String x r).
  - destruct (IH Hk) as [b' Hb']; [discriminate|].
    rewrite Hb'. cbn [append]. now exists b'.
Qed.

Lemma occurs_rstrip (k s : string) :
  lacks_space k = true -> k <> EmptyString -> occurs k s -> occurs k (rstrip s).
Proof.
  intros Hk Hne. induction s as [|c s IH].
  - auto.
  - intros (a & b & Hs). destruct a as [|d a].
    + cbn [append] in Hs. rewrite Hs.
      destruct (rstrip_keeps_word k b Hk Hne) as [b' ->].
      now exists EmptyString, b'.
    + cbn in Hs. injection Hs as <- Hs.
      assert (occurs k (rstrip s)) as (a' & b' & Hr)
          by (apply IH; now exists a, b).
      cbn [rstrip]. rewrite Hr.
      destruct (a' ++ k ++ b') as [|x r] eqn:E.
      * destruct a'; [destruct k; [contradiction | discriminate]
                     | discriminate].
      * rewrite <- E. now exists (String c a'), b'.
Qed.

Lemma lacks_space_head_ok (k : string) : lacks_space k = true -> head_ok k = true.
Proof.
  destruct k; cbn; [reflexivity|]. intros H.
  apply andb_true_iff in H. tauto.
Qed.

Lemma occurs_normalize (k m : string) :
  lacks_space k = true -> k <> EmptyString -> lower k = k ->
  occurs k (normalize m) <-> occurs k (lower m).
Proof.
  intros Hk Hne Hlow. unfold normalize. split.
  - apply occurs_of_strip.
  - intros H. unfold strip.
    apply occurs_rstrip; auto.
    apply occurs_lstrip; auto. now apply lacks_space_head_ok.
Qed.

(** X18: A message that holds a todo command stays a todo command whatever is
    written before and after it, and however its letters are cased. *)
Theorem todo_command_in_context (a m b : string) :
  classify (normalize m) = TodoCommand ->
  classify (normalize (a ++ m ++ b)) = TodoCommand
  /\ classify (normalize (lower m)) = TodoCommand.
Proof.
  intros H. apply classify_todo, is_todo_command_spec in H.
  destruct H as (k & Hk & Hocc).
  assert (lacks_space k = true /\ k <> EmptyString /\ lower k = k)
    as (Hsp & Hne & Hlow).
  { assert (forallb (fun w => lacks_space w && truthy w
                              && String.eqb (lower w) w) todo_keywords = true)
      as Hall by reflexivity.
    rewrite forallb_forall in Hall. specialize (Hall k Hk).
    apply andb_true_iff in Hall. destruct Hall as [Hall He].
    apply andb_true_iff in Hall. destruct Hall as [Hs Ht].
    apply String.eqb_eq in He. repeat split; auto.
    intros ->. discriminate Ht. }
  apply (occurs_normalize k m Hsp Hne Hlow) in Hocc.
  split; apply classify_todo, is_todo_command_spec; exists k;
    (split; [exact Hk|]); apply (occurs_normalize k _ Hsp Hne Hlow).
  - rewrite !lower_app. destruct Hocc as (x & y & ->).
    exists (lower a ++ x), (y ++ lower b). now rewrite !append_assoc.
  - now rewrite lower_idem.
Qed.

Lemma todo_command_in_context_witness :
  classify (normalize ("Could you please " ++ "Add Milk" ++ ", thanks!"))
  = TodoCommand.
Proof.
  apply (todo_command_in_context "Could you please " "Add Milk" ", thanks!").
  reflexivity.
Defined.
